(** * raito-io/sdk: the access-provider service client

    A shallow embedding of [internal/services/access_provider.go]: the
    four request/response methods, the list-option mutators, and the three
    paginated list methods with their page loaders and edge extractors.

    Go values are modelled as follows.
    - A pointer [*T] is [option T] ([None] is [nil]).
    - A slice [[]T] is [slice T = option (list T)] ([None] is the nil slice).
    - An interface value that the code type-switches on is an inductive
      type with one constructor per case of the switch and one more for
      every other dynamic type (the nil interface value included).
    - A function that may panic returns [GoResult].
    - The remote service is a deterministic responder that sees the
      history of requests; the history is the state threaded through every
      call of the generated [schema] package. *)

From Stdlib Require Import List String ZArith Bool Arith Lia.
Import ListNotations.
Open Scope string_scope.
Open Scope list_scope.
Open Scope nat_scope.

Set Implicit Arguments.

(** ** Go values *)

Definition Cursor := string.

Definition slice (A : Type) := option (list A).

(** The elements a [range] loop visits. *)
Definition elems {A} (s : slice A) : list A :=
  match s with
  | None => []
  | Some l => l
  end.

(** [append(s, input...)]: a nil slice stays nil when nothing is added. *)
Definition append {A} (s : slice A) (input : list A) : slice A :=
  match s, input with
  | None, [] => None
  | _, _ => Some (elems s ++ input)
  end.

(** [ptr.Int(n)] *)
Definition ptr_Int (n : Z) : option Z := Some n.

(** The value of a run-time panic.  [TypeAssertionError] is the error of a
    failed type assertion [x.(A)]: it records the dynamic type of [x] and
    the asserted type [A], the latter as the source writes it.  The text
    the run time prints for a panic is not modelled. *)
Inductive PanicValue : Type :=
| TypeAssertionError (concrete asserted : string)
| NilPointerDereference.

(** A call either returns or panics. *)
Inductive GoResult (A : Type) : Type :=
| Returned (a : A)
| Panicked (p : PanicValue).
Arguments Returned {A} a.
Arguments Panicked {A} p.

(** ** Types of the generated [schema] / [types] packages

    The payload structs are not inspected by the service code, so they are
    parameters of the development. *)

Class Schema := {
  AccessProvider : Type;
  AccessProviderInput : Type;
  AccessProviderOrderByInput : Type;
  AccessProviderFilterInput : Type;
  AccessProviderWhoListItem : Type;
  AccessProviderWhoOrderByInput : Type;
  AccessProviderWhatListItem : Type;
  AccessWhatOrderByInput : Type;
  (** the error value returned by the GraphQL client *)
  ClientError : Type
}.

(** Modelled from the spec: [schema.PageInfo] is declared in the generated
    package, which is not part of the sources at hand; section 3 of the
    specification gives these two fields. *)
Record PageInfo := {
  hasNextPage : bool;
  endCursor : option Cursor
}.

Section Services.

Context `{Schema}.

(** ** Errors *)

(** Modelled from the spec: the constructors [NewErrClient],
    [NewErrPermissionDenied], [NewErrNotFound] and the sentinel
    [ErrUnknownType] live in a file of the package that is not part of the
    sources at hand.  Each call is kept as a constructor applied to the
    arguments the call site passes, in the order it passes them; errors
    built with [fmt.Errorf] and [errors.New] are kept the same way. *)
Inductive error : Type :=
| NewErrClient (err : ClientError)
| NewErrPermissionDenied (operation message : string)
| NewErrNotFound (arg1 arg2 message : string)
| Errorf_unexpected_response_type (T : string)
    (* fmt.Errorf("unexpected response type: %T", v) *)
| Errorf_unexpected_type (T : string)
    (* fmt.Errorf("unexpected type '%T': %w", v, ErrUnknownType) *)
| errors_New (text : string)
| ErrProtocolViolation.
    (* raised by the executor: hasNextPage without a cursor *)

(** Modelled from the spec: the error kinds of section 7. *)
Inductive ErrorKind : Type :=
| TransportError
| PermissionDenied
| NotFound
| ProtocolViolation
| Unreachable.

(** Modelled from the spec: the kind of an error value.  The errors of the
    default arms are the defensive ones of section 7. *)
Definition kind (e : error) : ErrorKind :=
  match e with
  | NewErrClient _ => TransportError
  | NewErrPermissionDenied _ _ => PermissionDenied
  | NewErrNotFound _ _ _ => NotFound
  | Errorf_unexpected_response_type _ => Unreachable
  | Errorf_unexpected_type _ => Unreachable
  | errors_New _ => Unreachable
  | ErrProtocolViolation => ProtocolViolation
  end.

(** ** Response unions *)

Inductive CreateAccessProviderResult : Type :=
| CreateAccessProviderCreateAccessProvider (ap : AccessProvider)
| CreateAccessProviderCreateAccessProviderPermissionDeniedError (Message : string)
| CreateAccessProviderCreateAccessProviderOther (T : string).

Inductive UpdateAccessProviderResult : Type :=
| UpdateAccessProviderUpdateAccessProvider (ap : AccessProvider)
| UpdateAccessProviderUpdateAccessProviderPermissionDeniedError (Message : string)
| UpdateAccessProviderUpdateAccessProviderOther (T : string).

Inductive DeleteAccessProviderResult : Type :=
| DeleteAccessProviderDeleteAccessProvider
| DeleteAccessProviderDeleteAccessProviderPermissionDeniedError (Message : string)
| DeleteAccessProviderDeleteAccessProviderNotFoundError (Message : string)
| DeleteAccessProviderDeleteAccessProviderOther (T : string).

Inductive GetAccessProviderResult : Type :=
| GetAccessProviderAccessProvider (ap : AccessProvider)
| GetAccessProviderAccessProviderNotFoundError (Message : string)
| GetAccessProviderAccessProviderPermissionDeniedError (Message : string)
| GetAccessProviderAccessProviderOther (T : string).

(** Edges of the three paged results.  [Node] is a pointer to an interface
    value: [None] is the absent node.  The last constructor of each node
    type stands for a node of any other dynamic type, named [T]. *)

Inductive AccessProviderPageEdgesEdgeNode : Type :=
| AccessProviderPageEdgesEdgeNodeAccessProvider (ap : AccessProvider)
| AccessProviderPageEdgesEdgeNodeOther (T : string).

Record AccessProviderPageEdgesEdge := {
  ap_Cursor : option Cursor;
  ap_Node : option AccessProviderPageEdgesEdgeNode
}.

Inductive AccessProviderWhoListEdgesEdgeNode : Type :=
| AccessProviderWhoListEdgesEdgeNodeAccessWhoItem (item : AccessProviderWhoListItem)
| AccessProviderWhoListEdgesEdgeNodeOther (T : string).

Record AccessProviderWhoListEdgesEdge := {
  who_Cursor : option Cursor;
  who_Node : option AccessProviderWhoListEdgesEdgeNode
}.

Inductive AccessProviderWhatListEdgesEdgeNode : Type :=
| AccessProviderWhatListEdgesEdgeNodeAccessWhatItem (item : AccessProviderWhatListItem)
| AccessProviderWhatListEdgesEdgeNodeOther (T : string).

Record AccessProviderWhatListEdgesEdge := {
  what_Cursor : option Cursor;
  what_Node : option AccessProviderWhatListEdgesEdgeNode
}.

Inductive ListAccessProvidersAccessProviders : Type :=
| ListAccessProvidersAccessProvidersPagedResult
    (pageInfo : PageInfo) (Edges : slice AccessProviderPageEdgesEdge)
| ListAccessProvidersAccessProvidersPermissionDeniedError (Message : string)
| ListAccessProvidersAccessProvidersOther (T : string).

Inductive GetAccessProviderWhoListAccessProviderWhoList : Type :=
| GetAccessProviderWhoListAccessProviderWhoListPagedResult
    (pageInfo : PageInfo) (Edges : slice AccessProviderWhoListEdgesEdge)
| GetAccessProviderWhoListAccessProviderWhoListPermissionDeniedError (Message : string)
| GetAccessProviderWhoListAccessProviderWhoListOther (T : string).

Inductive GetAccessProviderWhoListResult : Type :=
| GetAccessProviderWhoListAccessProvider
    (WhoList : GetAccessProviderWhoListAccessProviderWhoList)
| GetAccessProviderWhoListAccessProviderNotFoundError (Message : string)
| GetAccessProviderWhoListAccessProviderPermissionDeniedError (Message : string)
| GetAccessProviderWhoListAccessProviderOther (T : string).

Inductive GetAccessProviderWhatDataObjectListAccessProviderWhatDataObjects : Type :=
| GetAccessProviderWhatDataObjectListAccessProviderWhatDataObjectsPagedResult
    (pageInfo : PageInfo) (Edges : slice AccessProviderWhatListEdgesEdge)
| GetAccessProviderWhatDataObjectListAccessProviderWhatDataObjectsPermissionDeniedError
    (Message : string)
| GetAccessProviderWhatDataObjectListAccessProviderWhatDataObjectsOther (T : string).

Inductive GetAccessProviderWhatDataObjectListResult : Type :=
| GetAccessProviderWhatDataObjectListAccessProvider
    (WhatDataObjects : GetAccessProviderWhatDataObjectListAccessProviderWhatDataObjects)
| GetAccessProviderWhatDataObjectListAccessProviderNotFoundError (Message : string)
| GetAccessProviderWhatDataObjectListAccessProviderPermissionDeniedError (Message : string)
| GetAccessProviderWhatDataObjectListAccessProviderOther (T : string).

(** ** The remote service

    One request per operation of the [schema] package, carrying the
    arguments of the call after [ctx] and [client]. *)

Inductive Request : Type :=
| ReqCreateAccessProvider (ap : AccessProviderInput)
| ReqUpdateAccessProvider (id : string) (ap : AccessProviderInput)
| ReqDeleteAccessProvider (id : string)
| ReqGetAccessProvider (id : string)
| ReqListAccessProviders
    (after : option Cursor) (first : option Z)
    (filter : option AccessProviderFilterInput)
    (order : slice AccessProviderOrderByInput)
| ReqGetAccessProviderWhoList
    (id : string) (after : option Cursor) (first : option Z)
    (search : option string) (order : slice AccessProviderWhoOrderByInput)
| ReqGetAccessProviderWhatDataObjectList
    (id : string) (after : option Cursor) (first : option Z)
    (search : option string) (order : slice AccessWhatOrderByInput).

(** The requests sent so far, oldest first. *)
Definition World := list Request.

(** [(resp, err)] of a generated query function; the callers read [resp]
    only when [err] is nil. *)
Inductive result (A : Type) : Type :=
| Ok (resp : A)
| Err (err : ClientError).
Arguments Ok {A} resp.
Arguments Err {A} err.

(** [graphql.Client]: what the service answers to a request, given the
    requests that came before. *)
Record Client := {
  onCreateAccessProvider : World -> Request -> result CreateAccessProviderResult;
  onUpdateAccessProvider : World -> Request -> result UpdateAccessProviderResult;
  onDeleteAccessProvider : World -> Request -> result DeleteAccessProviderResult;
  onGetAccessProvider : World -> Request -> result GetAccessProviderResult;
  onListAccessProviders : World -> Request -> result ListAccessProvidersAccessProviders;
  onGetAccessProviderWhoList : World -> Request -> result GetAccessProviderWhoListResult;
  onGetAccessProviderWhatDataObjectList :
    World -> Request -> result GetAccessProviderWhatDataObjectListResult
}.

(** One round trip: the answer, and the history extended by the request. *)
Definition roundTrip {A} (respond : World -> Request -> result A) (req : Request)
  : World -> result A * World :=
  fun w => (respond w req, w ++ [req]).

Definition schema_CreateAccessProvider (client : Client) (ap : AccessProviderInput) :=
  roundTrip (onCreateAccessProvider client) (ReqCreateAccessProvider ap).

Definition schema_UpdateAccessProvider (client : Client) (id : string)
    (ap : AccessProviderInput) :=
  roundTrip (onUpdateAccessProvider client) (ReqUpdateAccessProvider id ap).

Definition schema_DeleteAccessProvider (client : Client) (id : string) :=
  roundTrip (onDeleteAccessProvider client) (ReqDeleteAccessProvider id).

Definition schema_GetAccessProvider (client : Client) (id : string) :=
  roundTrip (onGetAccessProvider client) (ReqGetAccessProvider id).

Definition schema_ListAccessProviders (client : Client) (after : option Cursor)
    (first : option Z) (filter : option AccessProviderFilterInput)
    (order : slice AccessProviderOrderByInput) :=
  roundTrip (onListAccessProviders client)
            (ReqListAccessProviders after first filter order).

Definition schema_GetAccessProviderWhoList (client : Client) (id : string)
    (after : option Cursor) (first : option Z) (search : option string)
    (order : slice AccessProviderWhoOrderByInput) :=
  roundTrip (onGetAccessProviderWhoList client)
            (ReqGetAccessProviderWhoList id after first search order).

Definition schema_GetAccessProviderWhatDataObjectList (client : Client) (id : string)
    (after : option Cursor) (first : option Z) (search : option string)
    (order : slice AccessWhatOrderByInput) :=
  roundTrip (onGetAccessProviderWhatDataObjectList client)
            (ReqGetAccessProviderWhatDataObjectList id after first search order).

(** ** The service client *)

Record AccessProviderClient := {
  client : Client
}.

Definition NewAccessProviderClient (c : Client) : AccessProviderClient :=
  {| client := c |}.

Definition CreateAccessProvider (a : AccessProviderClient) (ap : AccessProviderInput)
  : World -> (option AccessProvider * option error) * World :=
  fun w =>
    let (result, w') := schema_CreateAccessProvider (client a) ap w in
    match result with
    | Err err => ((None, Some (NewErrClient err)), w')
    | Ok (CreateAccessProviderCreateAccessProvider response) =>
        ((Some response, None), w')
    | Ok (CreateAccessProviderCreateAccessProviderPermissionDeniedError Message) =>
        ((None, Some (NewErrPermissionDenied "createAccessProvider" Message)), w')
    | Ok (CreateAccessProviderCreateAccessProviderOther T) =>
        ((None, Some (Errorf_unexpected_response_type T)), w')
    end.

Definition UpdateAccessProvider (a : AccessProviderClient) (id : string)
    (ap : AccessProviderInput)
  : World -> (option AccessProvider * option error) * World :=
  fun w =>
    let (result, w') := schema_UpdateAccessProvider (client a) id ap w in
    match result with
    | Err err => ((None, Some (NewErrClient err)), w')
    | Ok (UpdateAccessProviderUpdateAccessProvider response) =>
        ((Some response, None), w')
    | Ok (UpdateAccessProviderUpdateAccessProviderPermissionDeniedError Message) =>
        ((None, Some (NewErrPermissionDenied "updateAccessProvider" Message)), w')
    | Ok (UpdateAccessProviderUpdateAccessProviderOther T) =>
        ((None, Some (Errorf_unexpected_response_type T)), w')
    end.

Definition DeleteAccessProvider (a : AccessProviderClient) (id : string)
  : World -> option error * World :=
  fun w =>
    let (result, w') := schema_DeleteAccessProvider (client a) id w in
    match result with
    | Err err => (Some (NewErrClient err), w')
    | Ok DeleteAccessProviderDeleteAccessProvider => (None, w')
    | Ok (DeleteAccessProviderDeleteAccessProviderPermissionDeniedError Message) =>
        (Some (NewErrPermissionDenied "deleteAccessProvider" Message), w')
    | Ok (DeleteAccessProviderDeleteAccessProviderNotFoundError Message) =>
        (Some (NewErrNotFound id "accessProvider" Message), w')
    | Ok (DeleteAccessProviderDeleteAccessProviderOther T) =>
        (Some (Errorf_unexpected_response_type T), w')
    end.

Definition GetAccessProvider (a : AccessProviderClient) (id : string)
  : World -> (option AccessProvider * option error) * World :=
  fun w =>
    let (result, w') := schema_GetAccessProvider (client a) id w in
    match result with
    | Err err => ((None, Some (NewErrClient err)), w')
    | Ok (GetAccessProviderAccessProvider ap) => ((Some ap, None), w')
    | Ok (GetAccessProviderAccessProviderNotFoundError Message) =>
        ((None, Some (NewErrNotFound id "accessProvider" Message)), w')
    | Ok (GetAccessProviderAccessProviderPermissionDeniedError Message) =>
        ((None, Some (NewErrPermissionDenied "getAccessProvider" Message)), w')
    | Ok (GetAccessProviderAccessProviderOther T) =>
        ((None, Some (Errorf_unexpected_response_type T)), w')
    end.

(** ** List options *)

Record AccessProviderListOptions := {
  order : slice AccessProviderOrderByInput;
  filter : option AccessProviderFilterInput
}.

Definition WithAccessProviderListOrder (input : list AccessProviderOrderByInput)
  : AccessProviderListOptions -> AccessProviderListOptions :=
  fun options =>
    {| order := append (order options) input; filter := filter options |}.

Definition WithAccessProviderListFilter (input : option AccessProviderFilterInput)
  : AccessProviderListOptions -> AccessProviderListOptions :=
  fun options =>
    {| order := order options; filter := input |}.

(** [options := T{}; for _, op := range ops { op(&options) }] *)
Definition applyOps {O} (zero : O) (ops : list (O -> O)) : O :=
  fold_left (fun options op => op options) ops zero.

Definition emptyAccessProviderListOptions : AccessProviderListOptions :=
  {| order := None; filter := None |}.

Record AccessProviderWhoListOptions := {
  who_order : slice AccessProviderWhoOrderByInput
}.

Definition WithAccessProviderWhoListOrder (input : list AccessProviderWhoOrderByInput)
  : AccessProviderWhoListOptions -> AccessProviderWhoListOptions :=
  fun options => {| who_order := append (who_order options) input |}.

Definition emptyAccessProviderWhoListOptions : AccessProviderWhoListOptions :=
  {| who_order := None |}.

Record AccessProviderWhatListOptions := {
  what_order : slice AccessWhatOrderByInput
}.

Definition WithAccessProviderWhatListOrder (input : list AccessWhatOrderByInput)
  : AccessProviderWhatListOptions -> AccessProviderWhatListOptions :=
  fun options => {| what_order := append (what_order options) input |}.

Definition emptyAccessProviderWhatListOptions : AccessProviderWhatListOptions :=
  {| what_order := None |}.

(** ** Page loaders and edge extractors

    The closures [loadPageFn] and [edgeFn] of the three list methods, named
    after the method that builds them.  A loader returns a Go triple:
    a PageInfo pointer, a slice of edges and an error; an extractor returns
    a cursor pointer, an item pointer and an error. *)

Definition ListAccessProviders_loadPageFn (a : AccessProviderClient)
    (options : AccessProviderListOptions) (cursor : option Cursor)
  : World -> (option PageInfo * slice AccessProviderPageEdgesEdge * option error) * World :=
  fun w =>
    let (output, w') :=
      schema_ListAccessProviders (client a) cursor (ptr_Int 25)
                                 (filter options) (order options) w in
    match output with
    | Err err => ((None, None, Some (NewErrClient err)), w')
    | Ok (ListAccessProvidersAccessProvidersPagedResult pageInfo Edges) =>
        ((Some pageInfo, Edges, None), w')
    | Ok (ListAccessProvidersAccessProvidersPermissionDeniedError Message) =>
        ((None, None, Some (NewErrPermissionDenied "listAccessProviders" Message)), w')
    | Ok (ListAccessProvidersAccessProvidersOther _) =>
        ((None, None, Some (errors_New "unreachable")), w')
    end.

Definition ListAccessProviders_edgeFn (edge : AccessProviderPageEdgesEdge)
  : GoResult (option Cursor * option AccessProvider * option error) :=
  let cursor := ap_Cursor edge in
  match ap_Node edge with
  | None => Returned (cursor, None, None)
  | Some (AccessProviderPageEdgesEdgeNodeAccessProvider listItem) =>
      Returned (cursor, Some listItem, None)
  | Some (AccessProviderPageEdgesEdgeNodeOther T) =>
      Panicked (TypeAssertionError T
                  "*schema.AccessProviderPageEdgesEdgeNodeAccessProvider")
  end.

Definition GetAccessProviderWhoList_loadPageFn (a : AccessProviderClient)
    (id : string) (options : AccessProviderWhoListOptions) (cursor : option Cursor)
  : World -> (option PageInfo * slice AccessProviderWhoListEdgesEdge * option error) * World :=
  fun w =>
    let (output, w') :=
      schema_GetAccessProviderWhoList (client a) id cursor (ptr_Int 25) None
                                      (who_order options) w in
    match output with
    | Err err => ((None, None, Some (NewErrClient err)), w')
    | Ok (GetAccessProviderWhoListAccessProvider whoList) =>
        match whoList with
        | GetAccessProviderWhoListAccessProviderWhoListPagedResult pageInfo Edges =>
            ((Some pageInfo, Edges, None), w')
        | GetAccessProviderWhoListAccessProviderWhoListPermissionDeniedError Message =>
            ((None, None,
              Some (NewErrPermissionDenied "accessProviderWhoList" Message)), w')
        | GetAccessProviderWhoListAccessProviderWhoListOther _ =>
            (* no case of the inner switch matches: fall out of both *)
            ((None, None, Some (errors_New "unreachable")), w')
        end
    | Ok (GetAccessProviderWhoListAccessProviderNotFoundError Message) =>
        ((None, None, Some (NewErrNotFound "AccessProvider" id Message)), w')
    | Ok (GetAccessProviderWhoListAccessProviderPermissionDeniedError Message) =>
        ((None, None, Some (NewErrPermissionDenied "accessProvider" Message)), w')
    | Ok (GetAccessProviderWhoListAccessProviderOther T) =>
        ((None, None, Some (Errorf_unexpected_type T)), w')
    end.

Definition GetAccessProviderWhoList_edgeFn (edge : AccessProviderWhoListEdgesEdge)
  : GoResult (option Cursor * option AccessProviderWhoListItem * option error) :=
  let cursor := who_Cursor edge in
  match who_Node edge with
  | None => Returned (cursor, None, None)
  | Some (AccessProviderWhoListEdgesEdgeNodeAccessWhoItem listItem) =>
      Returned (cursor, Some listItem, None)
  | Some (AccessProviderWhoListEdgesEdgeNodeOther T) =>
      Panicked (TypeAssertionError T
                  "*types.AccessProviderWhoListEdgesEdgeNodeAccessWhoItem")
  end.

Definition GetAccessProviderWhatDataObjectList_loadPageFn (a : AccessProviderClient)
    (id : string) (options : AccessProviderWhatListOptions) (cursor : option Cursor)
  : World -> (option PageInfo * slice AccessProviderWhatListEdgesEdge * option error) * World :=
  fun w =>
    let (output, w') :=
      schema_GetAccessProviderWhatDataObjectList (client a) id cursor (ptr_Int 25) None
                                                 (what_order options) w in
    match output with
    | Err err => ((None, None, Some (NewErrClient err)), w')
    | Ok (GetAccessProviderWhatDataObjectListAccessProvider whatList) =>
        match whatList with
        | GetAccessProviderWhatDataObjectListAccessProviderWhatDataObjectsPagedResult
            pageInfo Edges =>
            ((Some pageInfo, Edges, None), w')
        | GetAccessProviderWhatDataObjectListAccessProviderWhatDataObjectsPermissionDeniedError
            Message =>
            ((None, None,
              Some (NewErrPermissionDenied "accessProviderWhatDataObjectList" Message)), w')
        | GetAccessProviderWhatDataObjectListAccessProviderWhatDataObjectsOther _ =>
            ((None, None, Some (errors_New "unreachable")), w')
        end
    | Ok (GetAccessProviderWhatDataObjectListAccessProviderNotFoundError Message) =>
        ((None, None, Some (NewErrNotFound "AccessProvider" id Message)), w')
    | Ok (GetAccessProviderWhatDataObjectListAccessProviderPermissionDeniedError Message) =>
        ((None, None, Some (NewErrPermissionDenied "accessProvider" Message)), w')
    | Ok (GetAccessProviderWhatDataObjectListAccessProviderOther T) =>
        ((None, None, Some (Errorf_unexpected_type T)), w')
    end.

Definition GetAccessProviderWhatDataObjectList_edgeFn
    (edge : AccessProviderWhatListEdgesEdge)
  : GoResult (option Cursor * option AccessProviderWhatListItem * option error) :=
  let cursor := what_Cursor edge in
  match what_Node edge with
  | None => Returned (cursor, None, None)
  | Some (AccessProviderWhatListEdgesEdgeNodeAccessWhatItem listItem) =>
      Returned (cursor, Some listItem, None)
  | Some (AccessProviderWhatListEdgesEdgeNodeOther T) =>
      Panicked (TypeAssertionError T
                  "*types.AccessProviderWhatListEdgesEdgeNodeAccessWhatItem")
  end.

(** The history after calling a loader once per cursor of a list. *)
Fixpoint invokeAll {W R : Type} (loader : option Cursor -> W -> R * W)
    (cursors : list (option Cursor)) (w : W) : W :=
  match cursors with
  | [] => w
  | cursor :: rest => invokeAll loader rest (snd (loader cursor w))
  end.

(** ** The pagination executor

    [internal.PaginationExecutor] is called by the three list methods but
    its file is not part of the sources at hand.  What follows is the state
    machine of section 4.3 of the specification with the cancellation
    checkpoints of section 5: one checkpoint immediately before each loader
    call and one immediately before each push.  The worker and the consumer
    are sequentialised: a run is the list of events of the worker, and the
    stream is the list of pushed items. *)

(** Modelled from the spec: the cancellation signal of [context.Context].
    It fires once and stays: a context is cancelled from some checkpoint
    on, or never.  Checkpoints are numbered in the order the worker reaches
    them. *)
Record GoContext := {
  cancelledFrom : option nat
}.

Definition Background : GoContext := {| cancelledFrom := None |}.

Definition WithCancelAt (c : nat) : GoContext := {| cancelledFrom := Some c |}.

(** Whether the worker finds the context cancelled at checkpoint [k]. *)
Definition ctx_Done (ctx : GoContext) (k : nat) : bool :=
  match cancelledFrom ctx with
  | Some c => c <=? k
  | None => false
  end.

(** Modelled from the spec: [types.ListItem], of which exactly one of item
    and error is populated (section 3). *)
Inductive ListItem (T : Type) : Type :=
| ListItemValue (item : T)
| ListItemError (err : error).
Arguments ListItemValue {T} item.
Arguments ListItemError {T} err.

(** What the worker does, step by step. *)
Inductive Event (T : Type) : Type :=
| Checkpoint (k : nat) (cancelled : bool)
| LoaderCall (cursor : option Cursor) (err : option error)
| ExtractorCall (err : option error)
| Panic (p : PanicValue)
| Push (item : ListItem T)
| Close.
Arguments Checkpoint {T} k cancelled.
Arguments LoaderCall {T} cursor err.
Arguments ExtractorCall {T} err.
Arguments Panic {T} p.
Arguments Push {T} item.
Arguments Close {T}.

(** Modelled from the spec: the terminal states of section 4.3; [Crashed]
    is a panic of the worker, [Running] a worker that has not reached a
    terminal state within the given number of page fetches. *)
Inductive Final : Type :=
| Done
| Errored
| Cancelled
| Crashed
| Running.

Record Run (W T : Type) := {
  trace : list (Event T);
  final : Final;
  world : W
}.

(** What the consumer receives. *)
Fixpoint stream {T} (t : list (Event T)) : list (ListItem T) :=
  match t with
  | [] => []
  | Push item :: t' => item :: stream t'
  | _ :: t' => stream t'
  end.

(** The cursors of the loader calls, in order. *)
Fixpoint loaderCalls {T} (t : list (Event T)) : list (option Cursor) :=
  match t with
  | [] => []
  | LoaderCall cursor _ :: t' => cursor :: loaderCalls t'
  | _ :: t' => loaderCalls t'
  end.

(** The error of a loader or extractor call that failed. *)
Definition failure {T} (ev : Event T) : option error :=
  match ev with
  | LoaderCall _ (Some err) => Some err
  | ExtractorCall (Some err) => Some err
  | _ => None
  end.

(** The numbers of the checkpoints the worker reached, in order. *)
Fixpoint checkpoints {T} (t : list (Event T)) : list nat :=
  match t with
  | [] => []
  | Checkpoint k _ :: t' => k :: checkpoints t'
  | _ :: t' => checkpoints t'
  end.

(** An event that is neither a failed call nor the push of an error. *)
Definition quiet {T} (ev : Event T) : bool :=
  match ev with
  | LoaderCall _ (Some _) => false
  | ExtractorCall (Some _) => false
  | Push (ListItemError _) => false
  | _ => true
  end.

(** An event other than a checkpoint that finds the context cancelled. *)
Definition passed {T} (ev : Event T) : bool :=
  match ev with
  | Checkpoint _ true => false
  | _ => true
  end.

(** Nothing failed or was pushed as an error before a failed call, and
    the failed call is followed by a checkpoint and then either by one
    error item and the closing of the stream, or, when the checkpoint
    finds the context cancelled, by the closing of the stream alone. *)
Definition SingleError {T} (t : list (Event T)) (f : Final) : Prop :=
  forall pre ev post err,
    t = pre ++ ev :: post ->
    failure ev = Some err ->
    forallb quiet pre = true
    /\ exists k,
         (post = [Checkpoint k false; Push (ListItemError err); Close]
          /\ f = Errored)
         \/ (post = [Checkpoint k true; Close] /\ f = Cancelled).

(** The checkpoints of [t] are numbered consecutively from [k], and each
    reports whether the context is cancelled at its number. *)
Definition Numbered {T} (ctx : GoContext) (k : nat) (t : list (Event T)) : Prop :=
  checkpoints t = seq k (List.length (checkpoints t))
  /\ forall j b, In (Checkpoint j b) t -> b = ctx_Done ctx j.

(** A checkpoint that found the context not cancelled. *)
Definition passedCheckpoint {T} (ev : Event T) : bool :=
  match ev with
  | Checkpoint _ false => true
  | _ => false
  end.

(** The events the checkpoints guard: loader calls and pushes. *)
Definition effect {T} (ev : Event T) : bool :=
  match ev with
  | LoaderCall _ _ => true
  | Push _ => true
  | _ => false
  end.

(** Every loader call and every push of [t] comes immediately after a
    checkpoint that found the context not cancelled; [ok] tells whether
    the event before [t] was such a checkpoint. *)
Fixpoint guardedFrom {T} (ok : bool) (t : list (Event T)) : bool :=
  match t with
  | [] => true
  | ev :: t' =>
      (if effect ev then ok else true) && guardedFrom (passedCheckpoint ev) t'
  end.

(** A checkpoint that finds the context cancelled is followed by the
    closing of the stream only, and is the first to find it so. *)
Definition CancelObserved {T} (t : list (Event T)) (f : Final) : Prop :=
  forall pre j post,
    t = pre ++ Checkpoint j true :: post ->
    post = [Close] /\ f = Cancelled /\ forallb passed pre = true.

(** The checkpoints of [t] are numbered consecutively from [k], none is
    numbered above [c], and each reports whether the signal, which fires
    before checkpoint [c], has fired. *)
Definition WellNumbered {T} (c k : nat) (t : list (Event T)) : Prop :=
  checkpoints t = seq k (List.length (checkpoints t))
  /\ forall j b, In (Checkpoint j b) t -> b = (c <=? j) /\ j <= c.

Definition isValue {T} (item : ListItem T) : bool :=
  match item with
  | ListItemValue _ => true
  | ListItemError _ => false
  end.

Section Executor.

Variables W E T : Type.
Variable ctx : GoContext.
Variable loadPageFn :
  option Cursor -> W -> (option PageInfo * slice E * option error) * W.
Variable edgeFn : E -> GoResult (option Cursor * option T * option error).

(** Modelled from the spec: push one error item and close the stream,
    unless the checkpoint before the push finds the context cancelled. *)
Definition pushError (k : nat) (err : error) : list (Event T) * Final :=
  if ctx_Done ctx k then ([Checkpoint k true; Close], Cancelled)
  else ([Checkpoint k false; Push (ListItemError err); Close], Errored).

(** Modelled from the spec: the state Draining(page) of section 4.3.  The
    edges are taken in order; an extractor error is pushed and ends the
    run; an item is pushed after a checkpoint; an absent item is skipped.
    The result is the events of the page, and either the terminal state
    reached inside it or the number of the next checkpoint.  A panic of
    the extractor is a panic of the worker. *)
Fixpoint drain (edges : list E) (k : nat) : list (Event T) * (Final + nat) :=
  match edges with
  | [] => ([], inr k)
  | edge :: rest =>
      match edgeFn edge with
      | Panicked p => ([Panic p], inl Crashed)
      | Returned (_, _, Some err) =>
          let (t, f) := pushError k err in
          (ExtractorCall (Some err) :: t, inl f)
      | Returned (_, Some item, None) =>
          if ctx_Done ctx k
          then ([ExtractorCall None; Checkpoint k true; Close], inl Cancelled)
          else
            let (t, r) := drain rest (S k) in
            (ExtractorCall None :: Checkpoint k false
               :: Push (ListItemValue item) :: t, r)
      | Returned (_, None, None) =>
          let (t, r) := drain rest k in
          (ExtractorCall None :: t, r)
      end
  end.

(** Modelled from the spec: the state Fetching of section 4.3 and what
    follows it.  A checkpoint precedes the loader call; a loader error is
    pushed and ends the run; after the page is drained, [hasNextPage]
    decides between Done, the protocol violation (no cursor) and Fetching
    again with the cursor of the PageInfo.  [fuel] bounds the number of
    page fetches. *)
Fixpoint fetch (fuel : nat) (cursor : option Cursor) (k : nat) (w : W) : Run W T :=
  match fuel with
  | O => {| trace := []; final := Running; world := w |}
  | S fuel' =>
      if ctx_Done ctx k
      then {| trace := [Checkpoint k true; Close]; final := Cancelled; world := w |}
      else
        let '(pageInfo, edges, err, w') := loadPageFn cursor w in
        match err with
        | Some e =>
            let (t, f) := pushError (S k) e in
            {| trace := Checkpoint k false :: LoaderCall cursor (Some e) :: t;
               final := f; world := w' |}
        | None =>
            match pageInfo with
            | None =>
                (* outside the loader contract: a page without PageInfo *)
                {| trace := [Checkpoint k false; LoaderCall cursor None;
                             Panic NilPointerDereference];
                   final := Crashed; world := w' |}
            | Some info =>
                let (t, r) := drain (elems edges) (S k) in
                let page := Checkpoint k false :: LoaderCall cursor None :: t in
                match r with
                | inl f => {| trace := page; final := f; world := w' |}
                | inr k' =>
                    if hasNextPage info then
                      match endCursor info with
                      | None =>
                          let (t', f) := pushError k' ErrProtocolViolation in
                          {| trace := page ++ t'; final := f; world := w' |}
                      | Some next =>
                          let r' := fetch fuel' (Some next) k' w' in
                          {| trace := page ++ trace r';
                             final := final r'; world := world r' |}
                      end
                    else
                      {| trace := page ++ [Close]; final := Done; world := w' |}
                end
            end
        end
  end.

(** Modelled from the spec: [internal.PaginationExecutor], from Idle to
    Fetching with the cursor absent. *)
Definition PaginationExecutor (fuel : nat) (w : W) : Run W T :=
  fetch fuel None 0 w.

End Executor.

(** ** The list methods *)

Definition ListAccessProviders (fuel : nat) (a : AccessProviderClient)
    (ctx : GoContext)
    (ops : list (AccessProviderListOptions -> AccessProviderListOptions))
  : World -> Run World AccessProvider :=
  let options := applyOps emptyAccessProviderListOptions ops in
  PaginationExecutor ctx (ListAccessProviders_loadPageFn a options)
                     ListAccessProviders_edgeFn fuel.

Definition GetAccessProviderWhoList (fuel : nat) (a : AccessProviderClient)
    (ctx : GoContext) (id : string)
    (ops : list (AccessProviderWhoListOptions -> AccessProviderWhoListOptions))
  : World -> Run World AccessProviderWhoListItem :=
  let options := applyOps emptyAccessProviderWhoListOptions ops in
  PaginationExecutor ctx (GetAccessProviderWhoList_loadPageFn a id options)
                     GetAccessProviderWhoList_edgeFn fuel.

Definition GetAccessProviderWhatDataObjectList (fuel : nat) (a : AccessProviderClient)
    (ctx : GoContext) (id : string)
    (ops : list (AccessProviderWhatListOptions -> AccessProviderWhatListOptions))
  : World -> Run World AccessProviderWhatListItem :=
  let options := applyOps emptyAccessProviderWhatListOptions ops in
  PaginationExecutor ctx (GetAccessProviderWhatDataObjectList_loadPageFn a id options)
                     GetAccessProviderWhatDataObjectList_edgeFn fuel.

End Services.

Arguments Ok {H A} resp.
Arguments Err {H A} err.
Arguments ListItemValue {H T} item.
Arguments Push {H T} item.
Arguments ListItemError {H T} err.
Arguments Checkpoint {H T} k cancelled.
Arguments LoaderCall {H T} cursor err.
Arguments ExtractorCall {H T} err.
Arguments Panic {H T} p.
Arguments Close {H T}.
Arguments SingleError {H T} t f.
Arguments CancelObserved {H T} t f.
Arguments WellNumbered {H T} c k t.
Arguments Numbered {H T} ctx k t.

(** ** Option calls, as the callers of [ListAccessProviders] write them *)

Section OptionCalls.

Context `{Schema}.

Inductive ListOptionCall : Type :=
| OrderCall (input : list AccessProviderOrderByInput)
| FilterCall (input : option AccessProviderFilterInput).

Definition optionOf (c : ListOptionCall)
  : AccessProviderListOptions -> AccessProviderListOptions :=
  match c with
  | OrderCall input => WithAccessProviderListOrder input
  | FilterCall input => WithAccessProviderListFilter input
  end.

(** All orderings supplied, in application order. *)
Definition suppliedOrder (calls : list ListOptionCall) : list AccessProviderOrderByInput :=
  flat_map (fun c => match c with OrderCall input => input | FilterCall _ => [] end) calls.

(** All filters supplied, in application order. *)
Definition suppliedFilters (calls : list ListOptionCall)
  : list (option AccessProviderFilterInput) :=
  flat_map (fun c => match c with OrderCall _ => [] | FilterCall input => [input] end) calls.

End OptionCalls.

(** ** Paged answers of the service *)

Section PagedAnswers.

Context `{Schema}.

(** A page as the service returns it. *)
Definition Page := (PageInfo * slice AccessProviderPageEdgesEdge)%type.

(** The edges of a sequence of pages, page after page. *)
Definition allEdges (pages : list Page) : list AccessProviderPageEdgesEdge :=
  flat_map (fun page => elems (snd page)) pages.

(** A sequence of pages as successive loader calls can return it: every
    page but the last announces a next page and gives its cursor, the last
    announces none. *)
Fixpoint chained (pages : list Page) : Prop :=
  match pages with
  | [] => False
  | page :: rest =>
      match rest with
      | [] => hasNextPage (fst page) = false
      | _ :: _ =>
          hasNextPage (fst page) = true
          /\ endCursor (fst page) <> None
          /\ chained rest
      end
  end.

(** The successive calls of the loader return the successive pages: the
    first call, with [cursor] in the state [w], returns the first page,
    and each further call, with the end cursor of the page before it in
    the state the call before it left, returns the next page. *)
Fixpoint loaderReturns {W E : Type}
    (loadPageFn : option Cursor -> W
                  -> (option PageInfo * slice E * option error) * W)
    (cursor : option Cursor) (w : W) (pages : list (PageInfo * slice E)) : Prop :=
  match pages with
  | [] => True
  | page :: rest =>
      fst (loadPageFn cursor w) = (Some (fst page), snd page, None)
      /\ loaderReturns loadPageFn (endCursor (fst page))
                       (snd (loadPageFn cursor w)) rest
  end.

(** The node of the edge is present and holds this access provider. *)
Definition holds (edge : AccessProviderPageEdgesEdge) (ap : AccessProvider) : Prop :=
  ap_Node edge = Some (AccessProviderPageEdgesEdgeNodeAccessProvider ap).

End PagedAnswers.

(** ** Sequences of calls of the non-streaming methods *)

Section MethodCalls.

Context `{Schema}.

(** One call of a non-streaming method, with its arguments. *)
Inductive MethodCall : Type :=
| CallCreateAccessProvider (ap : AccessProviderInput)
| CallUpdateAccessProvider (id : string) (ap : AccessProviderInput)
| CallDeleteAccessProvider (id : string)
| CallGetAccessProvider (id : string).

(** The request that carries the arguments of the call. *)
Definition requestOf (c : MethodCall) : Request :=
  match c with
  | CallCreateAccessProvider ap => ReqCreateAccessProvider ap
  | CallUpdateAccessProvider id ap => ReqUpdateAccessProvider id ap
  | CallDeleteAccessProvider id => ReqDeleteAccessProvider id
  | CallGetAccessProvider id => ReqGetAccessProvider id
  end.

(** The history after the call; what the method returns is dropped. *)
Definition perform (a : AccessProviderClient) (c : MethodCall) (w : World) : World :=
  match c with
  | CallCreateAccessProvider ap => snd (CreateAccessProvider a ap w)
  | CallUpdateAccessProvider id ap => snd (UpdateAccessProvider a id ap w)
  | CallDeleteAccessProvider id => snd (DeleteAccessProvider a id w)
  | CallGetAccessProvider id => snd (GetAccessProvider a id w)
  end.

(** The history after the calls of a list, made one after the other. *)
Fixpoint performAll (a : AccessProviderClient) (calls : list MethodCall) (w : World)
  : World :=
  match calls with
  | [] => w
  | c :: rest => performAll a rest (perform a c w)
  end.

End MethodCalls.

(** ** A concrete schema and a scripted service, for evaluation *)

Module Sample.

#[export] Instance schema : Schema := {|
  AccessProvider := string;
  AccessProviderInput := string;
  AccessProviderOrderByInput := string;
  AccessProviderFilterInput := string;
  AccessProviderWhoListItem := string;
  AccessProviderWhoOrderByInput := string;
  AccessProviderWhatListItem := string;
  AccessWhatOrderByInput := string;
  ClientError := string
|}.

(** The [i]-th answer of a script; the connection drops after the last. *)
Definition scripted {A} (script : list (result A)) : World -> Request -> result A :=
  fun w _ => nth (List.length w) script (Err "connection reset").

Definition unreachableHost {A} : World -> Request -> result A :=
  fun _ _ => Err "no route to host".

Definition offline : Client := {|
  onCreateAccessProvider := unreachableHost;
  onUpdateAccessProvider := unreachableHost;
  onDeleteAccessProvider := unreachableHost;
  onGetAccessProvider := unreachableHost;
  onListAccessProviders := unreachableHost;
  onGetAccessProviderWhoList := unreachableHost;
  onGetAccessProviderWhatDataObjectList := unreachableHost
|}.

Definition listing (script : list (result ListAccessProvidersAccessProviders))
  : AccessProviderClient :=
  NewAccessProviderClient {|
    onCreateAccessProvider := unreachableHost;
    onUpdateAccessProvider := unreachableHost;
    onDeleteAccessProvider := unreachableHost;
    onGetAccessProvider := unreachableHost;
    onListAccessProviders := scripted script;
    onGetAccessProviderWhoList := unreachableHost;
    onGetAccessProviderWhatDataObjectList := unreachableHost
  |}.

Definition whoListing (script : list (result GetAccessProviderWhoListResult))
  : AccessProviderClient :=
  NewAccessProviderClient {|
    onCreateAccessProvider := unreachableHost;
    onUpdateAccessProvider := unreachableHost;
    onDeleteAccessProvider := unreachableHost;
    onGetAccessProvider := unreachableHost;
    onListAccessProviders := unreachableHost;
    onGetAccessProviderWhoList := scripted script;
    onGetAccessProviderWhatDataObjectList := unreachableHost
  |}.

Definition whatListing (script : list (result GetAccessProviderWhatDataObjectListResult))
  : AccessProviderClient :=
  NewAccessProviderClient {|
    onCreateAccessProvider := unreachableHost;
    onUpdateAccessProvider := unreachableHost;
    onDeleteAccessProvider := unreachableHost;
    onGetAccessProvider := unreachableHost;
    onListAccessProviders := unreachableHost;
    onGetAccessProviderWhoList := unreachableHost;
    onGetAccessProviderWhatDataObjectList := scripted script
  |}.

Definition edge (cursor : string) (ap : string) : AccessProviderPageEdgesEdge :=
  {| ap_Cursor := Some cursor;
     ap_Node := Some (AccessProviderPageEdgesEdgeNodeAccessProvider ap) |}.

Definition absentEdge (cursor : string) : AccessProviderPageEdgesEdge :=
  {| ap_Cursor := Some cursor; ap_Node := None |}.

(** An edge whose node is present with another dynamic type. *)
Definition foreignEdge (cursor : string) : AccessProviderPageEdgesEdge :=
  {| ap_Cursor := Some cursor;
     ap_Node := Some (AccessProviderPageEdgesEdgeNodeOther
                        "*schema.AccessProviderPageEdgesEdgeNodeDataObject") |}.

Definition page1 : PageInfo * slice AccessProviderPageEdgesEdge :=
  ({| hasNextPage := true; endCursor := Some "c2" |},
   Some [edge "c1" "ap-1"; edge "c2" "ap-2"]).

Definition page2 : PageInfo * slice AccessProviderPageEdgesEdge :=
  ({| hasNextPage := false; endCursor := Some "c3" |},
   Some [edge "c3" "ap-3"]).

Definition foreignPage : PageInfo * slice AccessProviderPageEdgesEdge :=
  ({| hasNextPage := false; endCursor := None |},
   Some [foreignEdge "c1"]).

Definition paged (p : PageInfo * slice AccessProviderPageEdgesEdge)
  : result ListAccessProvidersAccessProviders :=
  Ok (ListAccessProvidersAccessProvidersPagedResult (fst p) (snd p)).

(** A service that answers a list query by its cursor alone: the first
    page without cursor, the second page after the cursor of the first. *)
Definition byCursor : AccessProviderClient :=
  NewAccessProviderClient {|
    onCreateAccessProvider := unreachableHost;
    onUpdateAccessProvider := unreachableHost;
    onDeleteAccessProvider := unreachableHost;
    onGetAccessProvider := unreachableHost;
    onListAccessProviders := fun _ req =>
      match req with
      | ReqListAccessProviders None _ _ _ => paged page1
      | ReqListAccessProviders (Some after) _ _ _ =>
          if String.eqb after "c2" then paged page2 else Err "unknown cursor"
      | _ => Err "unknown query"
      end;
    onGetAccessProviderWhoList := unreachableHost;
    onGetAccessProviderWhatDataObjectList := unreachableHost
  |}.

Definition denied : result ListAccessProvidersAccessProviders :=
  Ok (ListAccessProvidersAccessProvidersPermissionDeniedError "no access").

Definition whoEdge (cursor : string) (item : string) : AccessProviderWhoListEdgesEdge :=
  {| who_Cursor := Some cursor;
     who_Node := Some (AccessProviderWhoListEdgesEdgeNodeAccessWhoItem item) |}.

Definition whoForeignEdge (cursor : string) : AccessProviderWhoListEdgesEdge :=
  {| who_Cursor := Some cursor;
     who_Node := Some (AccessProviderWhoListEdgesEdgeNodeOther
                         "*types.AccessProviderWhoListEdgesEdgeNodeGroup") |}.

Definition whatEdge (cursor : string) (item : string) : AccessProviderWhatListEdgesEdge :=
  {| what_Cursor := Some cursor;
     what_Node := Some (AccessProviderWhatListEdgesEdgeNodeAccessWhatItem item) |}.

Definition whatAbsentEdge (cursor : string) : AccessProviderWhatListEdgesEdge :=
  {| what_Cursor := Some cursor; what_Node := None |}.

Definition whatForeignEdge (cursor : string) : AccessProviderWhatListEdgesEdge :=
  {| what_Cursor := Some cursor;
     what_Node := Some (AccessProviderWhatListEdgesEdgeNodeOther
                          "*types.AccessProviderWhatListEdgesEdgeNodeDataObject") |}.

End Sample.

(** * Properties *)

Section Properties.

Context `{Schema}.

(** ** Slices and options *)

Lemma elems_append {A} (s : slice A) (input : list A) :
  elems (append s input) = elems s ++ input.
Proof.
  destruct s as [l|]; destruct input as [|x xs]; simpl; reflexivity.
Qed.

Lemma applyOps_cons {O} (zero : O) (op : O -> O) (ops : list (O -> O)) :
  applyOps zero (op :: ops) = applyOps (op zero) ops.
Proof. reflexivity. Qed.

Lemma last_cons_default {A} (x : A) (l : list A) (d d' : A) :
  last (x :: l) d = last (x :: l) d'.
Proof.
  revert x. induction l as [|y l IH]; intro x; [reflexivity|].
  change (last (y :: l) d = last (y :: l) d'). apply IH.
Qed.

Lemma applyOps_calls (calls : list ListOptionCall) (o : AccessProviderListOptions) :
  elems (order (applyOps o (map optionOf calls))) = elems (order o) ++ suppliedOrder calls
  /\ filter (applyOps o (map optionOf calls)) = last (suppliedFilters calls) (filter o).
Proof.
  revert o.
  induction calls as [|c calls IH]; intro o.
  - simpl. rewrite app_nil_r. split; reflexivity.
  - change (map optionOf (c :: calls)) with (optionOf c :: map optionOf calls).
    rewrite applyOps_cons.
    destruct (IH (optionOf c o)) as [IHo IHf].
    rewrite IHo, IHf.
    destruct c as [input|input]; simpl.
    + rewrite elems_append, <- app_assoc. split; reflexivity.
    + split; [reflexivity|].
      destruct (suppliedFilters calls) as [|f fs]; [reflexivity|].
      apply last_cons_default.
Qed.

(** C10: applying any sequence of option calls to the empty options leaves
    in [order] the concatenation of all supplied orderings, in application
    order, and in [filter] the last filter supplied (nil when none was):
    the order mutator accumulates, the filter mutator overwrites. *)
Theorem list_options_order_appends_filter_overwrites (calls : list ListOptionCall) :
  let options := applyOps emptyAccessProviderListOptions (map optionOf calls) in
  elems (order options) = suppliedOrder calls
  /\ filter options = last (suppliedFilters calls) None.
Proof.
  simpl.
  destruct (applyOps_calls calls emptyAccessProviderListOptions) as [Ho Hf].
  split; [exact Ho | exact Hf].
Qed.

(** ** The non-streaming methods *)

(** C9: [CreateAccessProvider], [UpdateAccessProvider] and
    [GetAccessProvider] return a non-nil pointer exactly when they return a
    nil error, whatever the service answers (the default arm included);
    [DeleteAccessProvider] returns nil exactly when the request succeeded
    with the success variant. *)
Theorem non_streaming_methods_return_exactly_one
    (a : AccessProviderClient) (id : string) (ap : AccessProviderInput) (w : World) :
  (let '(response, err, _) := CreateAccessProvider a ap w in
   response <> None <-> err = None)
  /\ (let '(response, err, _) := UpdateAccessProvider a id ap w in
      response <> None <-> err = None)
  /\ (let '(response, err, _) := GetAccessProvider a id w in
      response <> None <-> err = None)
  /\ (fst (DeleteAccessProvider a id w) = None
      <-> fst (schema_DeleteAccessProvider (client a) id w)
          = Ok DeleteAccessProviderDeleteAccessProvider).
Proof.
  unfold CreateAccessProvider, UpdateAccessProvider, GetAccessProvider,
    DeleteAccessProvider, schema_CreateAccessProvider, schema_UpdateAccessProvider,
    schema_GetAccessProvider, schema_DeleteAccessProvider, roundTrip.
  simpl.
  split; [|split; [|split]].
  - destruct (onCreateAccessProvider (client a) w (ReqCreateAccessProvider ap))
      as [[response|Message|T]|err]; simpl; split; congruence.
  - destruct (onUpdateAccessProvider (client a) w (ReqUpdateAccessProvider id ap))
      as [[response|Message|T]|err]; simpl; split; congruence.
  - destruct (onGetAccessProvider (client a) w (ReqGetAccessProvider id))
      as [[response|Message|Message|T]|err]; simpl; split; congruence.
  - destruct (onDeleteAccessProvider (client a) w (ReqDeleteAccessProvider id))
      as [[|Message|Message|T]|err]; simpl; split; congruence.
Qed.

(** ** Edge extractors *)

Lemma edgeFn_never_returns_error :
  (forall edge cursor item err,
      ListAccessProviders_edgeFn edge = Returned (cursor, item, err) -> err = None)
  /\ (forall edge cursor item err,
      GetAccessProviderWhoList_edgeFn edge = Returned (cursor, item, err) -> err = None)
  /\ (forall edge cursor item err,
      GetAccessProviderWhatDataObjectList_edgeFn edge = Returned (cursor, item, err) ->
      err = None).
Proof.
  unfold ListAccessProviders_edgeFn, GetAccessProviderWhoList_edgeFn,
    GetAccessProviderWhatDataObjectList_edgeFn.
  repeat split; intros [cur [[item|T]|]] cursor item' err; simpl; congruence.
Qed.

(** C2, amended: on an edge whose node is present with a dynamic type other
    than the expected variant, each of the three extractors panics on the
    failed type assertion; and no extractor ever returns a non-nil error. *)
Theorem edgeFn_mismatch_panics :
  (forall edge T,
      ap_Node edge = Some (AccessProviderPageEdgesEdgeNodeOther T) ->
      ListAccessProviders_edgeFn edge
      = Panicked (TypeAssertionError T
                    "*schema.AccessProviderPageEdgesEdgeNodeAccessProvider"))
  /\ (forall edge T,
      who_Node edge = Some (AccessProviderWhoListEdgesEdgeNodeOther T) ->
      GetAccessProviderWhoList_edgeFn edge
      = Panicked (TypeAssertionError T
                    "*types.AccessProviderWhoListEdgesEdgeNodeAccessWhoItem"))
  /\ (forall edge T,
      what_Node edge = Some (AccessProviderWhatListEdgesEdgeNodeOther T) ->
      GetAccessProviderWhatDataObjectList_edgeFn edge
      = Panicked (TypeAssertionError T
                    "*types.AccessProviderWhatListEdgesEdgeNodeAccessWhatItem"))
  /\ (forall edge cursor item err,
      ListAccessProviders_edgeFn edge = Returned (cursor, item, err) -> err = None)
  /\ (forall edge cursor item err,
      GetAccessProviderWhoList_edgeFn edge = Returned (cursor, item, err) -> err = None)
  /\ (forall edge cursor item err,
      GetAccessProviderWhatDataObjectList_edgeFn edge = Returned (cursor, item, err) ->
      err = None).
Proof.
  destruct edgeFn_never_returns_error as (H1 & H2 & H3).
  repeat split; try assumption;
    intros edge T Hnode;
    unfold ListAccessProviders_edgeFn, GetAccessProviderWhoList_edgeFn,
      GetAccessProviderWhatDataObjectList_edgeFn;
    rewrite Hnode; reflexivity.
Qed.

(** An edge with an absent node costs the worker one extractor call and
    nothing else: no checkpoint, no push, and the page goes on. *)
Lemma drain_absent_node {E T : Type} (ctx : GoContext)
    (edgeFn : E -> GoResult (option Cursor * option T * option error))
    (edge : E) (cursor : option Cursor) (rest : list E) (k : nat) :
  edgeFn edge = Returned (cursor, None, None) ->
  drain ctx edgeFn (edge :: rest) k
  = (ExtractorCall None :: fst (drain ctx edgeFn rest k),
     snd (drain ctx edgeFn rest k)).
Proof.
  intro Hedge. simpl. rewrite Hedge.
  destruct (drain ctx edgeFn rest k) as [t r]. reflexivity.
Qed.

(** C4, amended: on an edge whose node is absent or has the expected
    variant, the extractors of [ListAccessProviders] and
    [GetAccessProviderWhatDataObjectList] return the cursor of the edge;
    with an absent node they return no item and no error, so that the
    edge adds nothing to the stream and draining goes on with the next
    edge. *)
Theorem edgeFn_returns_cursor_and_skips_absent_node :
  (forall edge,
      ap_Node edge = None ->
      ListAccessProviders_edgeFn edge = Returned (ap_Cursor edge, None, None))
  /\ (forall edge ap,
      ap_Node edge = Some (AccessProviderPageEdgesEdgeNodeAccessProvider ap) ->
      ListAccessProviders_edgeFn edge = Returned (ap_Cursor edge, Some ap, None))
  /\ (forall edge,
      what_Node edge = None ->
      GetAccessProviderWhatDataObjectList_edgeFn edge
      = Returned (what_Cursor edge, None, None))
  /\ (forall edge item,
      what_Node edge = Some (AccessProviderWhatListEdgesEdgeNodeAccessWhatItem item) ->
      GetAccessProviderWhatDataObjectList_edgeFn edge
      = Returned (what_Cursor edge, Some item, None))
  /\ (forall ctx edge rest k,
      ap_Node edge = None ->
      stream (fst (drain ctx ListAccessProviders_edgeFn (edge :: rest) k))
      = stream (fst (drain ctx ListAccessProviders_edgeFn rest k))
      /\ snd (drain ctx ListAccessProviders_edgeFn (edge :: rest) k)
         = snd (drain ctx ListAccessProviders_edgeFn rest k))
  /\ (forall ctx edge rest k,
      what_Node edge = None ->
      stream (fst (drain ctx GetAccessProviderWhatDataObjectList_edgeFn (edge :: rest) k))
      = stream (fst (drain ctx GetAccessProviderWhatDataObjectList_edgeFn rest k))
      /\ snd (drain ctx GetAccessProviderWhatDataObjectList_edgeFn (edge :: rest) k)
         = snd (drain ctx GetAccessProviderWhatDataObjectList_edgeFn rest k)).
Proof.
  assert (Hap : forall edge, ap_Node edge = None ->
            ListAccessProviders_edgeFn edge = Returned (ap_Cursor edge, None, None)).
  { intros edge Hnode. unfold ListAccessProviders_edgeFn. rewrite Hnode. reflexivity. }
  assert (Hwhat : forall edge, what_Node edge = None ->
            GetAccessProviderWhatDataObjectList_edgeFn edge
            = Returned (what_Cursor edge, None, None)).
  { intros edge Hnode. unfold GetAccessProviderWhatDataObjectList_edgeFn.
    rewrite Hnode. reflexivity. }
  split; [exact Hap|].
  split.
  { intros edge ap Hnode. unfold ListAccessProviders_edgeFn. rewrite Hnode. reflexivity. }
  split; [exact Hwhat|].
  split.
  { intros edge item Hnode. unfold GetAccessProviderWhatDataObjectList_edgeFn.
    rewrite Hnode. reflexivity. }
  split.
  - intros ctx edge rest k Hnode.
    rewrite (@drain_absent_node _ _ ctx _ _ _ rest k (Hap edge Hnode)).
    split; reflexivity.
  - intros ctx edge rest k Hnode.
    rewrite (@drain_absent_node _ _ ctx _ _ _ rest k (Hwhat edge Hnode)).
    split; reflexivity.
Qed.

(** ** Page loaders *)

Ltac unfold_loaders :=
  unfold ListAccessProviders_loadPageFn, GetAccessProviderWhoList_loadPageFn,
    GetAccessProviderWhatDataObjectList_loadPageFn, schema_ListAccessProviders,
    schema_GetAccessProviderWhoList, schema_GetAccessProviderWhatDataObjectList,
    roundTrip in *; simpl in *.

(** C6: when the answer to the query is of none of the variants the switch
    knows (at the outer or at the inner level), each of the three loaders
    returns an error, with a nil PageInfo and a nil edge slice. *)
Theorem loadPageFn_unknown_variant_returns_error
    (a : AccessProviderClient) (id : string) (cursor : option Cursor) (w : World) :
  (forall options T,
      fst (schema_ListAccessProviders (client a) cursor (ptr_Int 25)
             (filter options) (order options) w)
      = Ok (ListAccessProvidersAccessProvidersOther T) ->
      fst (ListAccessProviders_loadPageFn a options cursor w)
      = (None, None, Some (errors_New "unreachable")))
  /\ (forall options T,
      fst (schema_GetAccessProviderWhoList (client a) id cursor (ptr_Int 25) None
             (who_order options) w)
      = Ok (GetAccessProviderWhoListAccessProviderOther T) ->
      fst (GetAccessProviderWhoList_loadPageFn a id options cursor w)
      = (None, None, Some (Errorf_unexpected_type T)))
  /\ (forall options T,
      fst (schema_GetAccessProviderWhoList (client a) id cursor (ptr_Int 25) None
             (who_order options) w)
      = Ok (GetAccessProviderWhoListAccessProvider
              (GetAccessProviderWhoListAccessProviderWhoListOther T)) ->
      fst (GetAccessProviderWhoList_loadPageFn a id options cursor w)
      = (None, None, Some (errors_New "unreachable")))
  /\ (forall options T,
      fst (schema_GetAccessProviderWhatDataObjectList (client a) id cursor (ptr_Int 25)
             None (what_order options) w)
      = Ok (GetAccessProviderWhatDataObjectListAccessProviderOther T) ->
      fst (GetAccessProviderWhatDataObjectList_loadPageFn a id options cursor w)
      = (None, None, Some (Errorf_unexpected_type T)))
  /\ (forall options T,
      fst (schema_GetAccessProviderWhatDataObjectList (client a) id cursor (ptr_Int 25)
             None (what_order options) w)
      = Ok (GetAccessProviderWhatDataObjectListAccessProvider
              (GetAccessProviderWhatDataObjectListAccessProviderWhatDataObjectsOther T)) ->
      fst (GetAccessProviderWhatDataObjectList_loadPageFn a id options cursor w)
      = (None, None, Some (errors_New "unreachable"))).
Proof.
  repeat split; intros options T Hanswer; unfold_loaders;
    rewrite Hanswer; reflexivity.
Qed.

(** A loader that returns an error returns nothing else. *)
Lemma loadPageFn_error_alone
    (a : AccessProviderClient) (id : string) (cursor : option Cursor) (w : World) :
  (forall options pageInfo edges err w',
      ListAccessProviders_loadPageFn a options cursor w
      = ((pageInfo, edges, Some err), w') ->
      pageInfo = None /\ edges = None)
  /\ (forall options pageInfo edges err w',
      GetAccessProviderWhoList_loadPageFn a id options cursor w
      = ((pageInfo, edges, Some err), w') ->
      pageInfo = None /\ edges = None)
  /\ (forall options pageInfo edges err w',
      GetAccessProviderWhatDataObjectList_loadPageFn a id options cursor w
      = ((pageInfo, edges, Some err), w') ->
      pageInfo = None /\ edges = None).
Proof.
  split; [|split]; intros options pageInfo edges err w' Hload; unfold_loaders;
    match goal with
    | Hl : match ?r with Ok _ => _ | Err _ => _ end = _ |- _ =>
        destruct r as [[]|]
    end;
    repeat match goal with
    | Hl : match ?r with _ => _ end = _ |- _ => destruct r
    end;
    try discriminate; inversion Hload; split; reflexivity.
Qed.

(** C7: a loader that returns a non-nil error returns a nil PageInfo and
    a nil edge slice; and the error it returns for a permission-denied or
    not-found answer is of that kind, which is not the kind of the error
    it returns when the request itself failed. *)
Theorem loadPageFn_error_is_alone_and_keeps_its_kind
    (a : AccessProviderClient) (id : string) (cursor : option Cursor) (w : World) :
  (forall options pageInfo edges err w',
      ListAccessProviders_loadPageFn a options cursor w
      = ((pageInfo, edges, Some err), w') ->
      pageInfo = None /\ edges = None)
  /\ (forall options pageInfo edges err w',
      GetAccessProviderWhoList_loadPageFn a id options cursor w
      = ((pageInfo, edges, Some err), w') ->
      pageInfo = None /\ edges = None)
  /\ (forall options pageInfo edges err w',
      GetAccessProviderWhatDataObjectList_loadPageFn a id options cursor w
      = ((pageInfo, edges, Some err), w') ->
      pageInfo = None /\ edges = None)
  /\ (forall options Message,
      fst (schema_ListAccessProviders (client a) cursor (ptr_Int 25)
             (filter options) (order options) w)
      = Ok (ListAccessProvidersAccessProvidersPermissionDeniedError Message) ->
      exists err,
        fst (ListAccessProviders_loadPageFn a options cursor w) = (None, None, Some err)
        /\ kind err = PermissionDenied)
  /\ (forall options Message,
      fst (schema_GetAccessProviderWhoList (client a) id cursor (ptr_Int 25) None
             (who_order options) w)
      = Ok (GetAccessProviderWhoListAccessProviderPermissionDeniedError Message) ->
      exists err,
        fst (GetAccessProviderWhoList_loadPageFn a id options cursor w)
        = (None, None, Some err)
        /\ kind err = PermissionDenied)
  /\ (forall options Message,
      fst (schema_GetAccessProviderWhoList (client a) id cursor (ptr_Int 25) None
             (who_order options) w)
      = Ok (GetAccessProviderWhoListAccessProvider
              (GetAccessProviderWhoListAccessProviderWhoListPermissionDeniedError Message)) ->
      exists err,
        fst (GetAccessProviderWhoList_loadPageFn a id options cursor w)
        = (None, None, Some err)
        /\ kind err = PermissionDenied)
  /\ (forall options Message,
      fst (schema_GetAccessProviderWhoList (client a) id cursor (ptr_Int 25) None
             (who_order options) w)
      = Ok (GetAccessProviderWhoListAccessProviderNotFoundError Message) ->
      exists err,
        fst (GetAccessProviderWhoList_loadPageFn a id options cursor w)
        = (None, None, Some err)
        /\ kind err = NotFound)
  /\ (forall options cause,
      fst (schema_ListAccessProviders (client a) cursor (ptr_Int 25)
             (filter options) (order options) w)
      = Err cause ->
      exists err,
        fst (ListAccessProviders_loadPageFn a options cursor w) = (None, None, Some err)
        /\ kind err = TransportError)
  /\ (forall options cause,
      fst (schema_GetAccessProviderWhoList (client a) id cursor (ptr_Int 25) None
             (who_order options) w)
      = Err cause ->
      exists err,
        fst (GetAccessProviderWhoList_loadPageFn a id options cursor w)
        = (None, None, Some err)
        /\ kind err = TransportError)
  /\ PermissionDenied <> TransportError
  /\ NotFound <> TransportError
  /\ PermissionDenied <> NotFound.
Proof.
  destruct (loadPageFn_error_alone a id cursor w) as (H1 & H2 & H3).
  split; [exact H1|]. split; [exact H2|]. split; [exact H3|].
  repeat split; try discriminate;
    intros options Message Hanswer; unfold_loaders; rewrite Hanswer;
    eexists; split; reflexivity.
Qed.

(** Every call of a loader appends one request to the history. *)
Lemma invokeAll_history {R : Type} (loader : option Cursor -> World -> R * World)
    (request : option Cursor -> Request) :
  (forall cursor w, snd (loader cursor w) = w ++ [request cursor]) ->
  forall cursors w, invokeAll loader cursors w = w ++ map request cursors.
Proof.
  intros Hloader cursors.
  induction cursors as [|cursor rest IH]; intro w; simpl.
  - symmetry. apply app_nil_r.
  - rewrite IH, Hloader, <- app_assoc. reflexivity.
Qed.

Lemma loadPageFn_history (a : AccessProviderClient) (id : string) :
  (forall options cursor w,
      snd (ListAccessProviders_loadPageFn a options cursor w)
      = w ++ [ReqListAccessProviders cursor (Some 25%Z) (filter options) (order options)])
  /\ (forall options cursor w,
      snd (GetAccessProviderWhoList_loadPageFn a id options cursor w)
      = w ++ [ReqGetAccessProviderWhoList id cursor (Some 25%Z) None (who_order options)])
  /\ (forall options cursor w,
      snd (GetAccessProviderWhatDataObjectList_loadPageFn a id options cursor w)
      = w ++ [ReqGetAccessProviderWhatDataObjectList id cursor (Some 25%Z) None
                (what_order options)]).
Proof.
  split; [|split]; intros options cursor w; unfold_loaders;
    match goal with
    | |- context [match ?r with Ok _ => _ | Err _ => _ end] => destruct r as [[]|]
    end;
    repeat match goal with
    | |- context [match ?r with _ => _ end] => destruct r
    end;
    reflexivity.
Qed.

(** ** Traces *)

Lemma app_split_prefix {A} (P : A -> bool) (p t pre post : list A) (x : A) :
  forallb P p = true -> P x = false ->
  p ++ t = pre ++ x :: post ->
  exists pre', pre = p ++ pre' /\ t = pre' ++ x :: post.
Proof.
  revert pre.
  induction p as [|a p IH]; intros pre Hp Hx Heq; simpl in *.
  - exists pre. split; [reflexivity | exact Heq].
  - apply andb_prop in Hp. destruct Hp as [Ha Hp].
    destruct pre as [|b pre]; simpl in Heq; injection Heq as Hab Heq.
    + congruence.
    + destruct (IH pre Hp Hx Heq) as (pre' & -> & ->).
      exists pre'. subst b. split; reflexivity.
Qed.

Lemma stream_app {T} (t1 t2 : list (Event T)) :
  stream (t1 ++ t2) = stream t1 ++ stream t2.
Proof.
  induction t1 as [|ev t1 IH]; [reflexivity|].
  destruct ev; simpl; rewrite IH; reflexivity.
Qed.

Lemma loaderCalls_app {T} (t1 t2 : list (Event T)) :
  loaderCalls (t1 ++ t2) = loaderCalls t1 ++ loaderCalls t2.
Proof.
  induction t1 as [|ev t1 IH]; [reflexivity|].
  destruct ev; simpl; rewrite IH; reflexivity.
Qed.

Lemma checkpoints_app {T} (t1 t2 : list (Event T)) :
  checkpoints (t1 ++ t2) = checkpoints t1 ++ checkpoints t2.
Proof.
  induction t1 as [|ev t1 IH]; [reflexivity|].
  destruct ev; simpl; rewrite IH; reflexivity.
Qed.

Lemma failure_not_quiet {T} (ev : Event T) (err : error) :
  failure ev = Some err -> quiet ev = false.
Proof.
  destruct ev as [k b|cursor [e|]|[e|]|msg|item|]; simpl; congruence.
Qed.

Lemma quiet_stream_values {T} (t : list (Event T)) :
  forallb quiet t = true -> forallb isValue (stream t) = true.
Proof.
  induction t as [|ev t IH]; [reflexivity|].
  simpl. intro Hq. apply andb_prop in Hq. destruct Hq as [Hev Ht].
  destruct ev as [k b|cursor e|e|msg|[item|e]|]; simpl in *;
    try (apply IH; exact Ht); congruence.
Qed.

Lemma SingleError_quiet {T} (t : list (Event T)) (f : Final) :
  forallb quiet t = true -> SingleError t f.
Proof.
  intros Hq pre ev post err -> Hfail.
  rewrite forallb_app in Hq. apply andb_prop in Hq. destruct Hq as [_ Hq].
  simpl in Hq. rewrite (failure_not_quiet _ Hfail) in Hq. discriminate.
Qed.

Lemma SingleError_prefix {T} (p t : list (Event T)) (f : Final) :
  forallb quiet p = true -> SingleError t f -> SingleError (p ++ t) f.
Proof.
  intros Hp Ht pre ev post err Heq Hfail.
  destruct (app_split_prefix quiet p t pre post ev Hp
              (failure_not_quiet _ Hfail) Heq) as (pre' & -> & Heq').
  destruct (Ht pre' ev post err Heq' Hfail) as (Hpre & Hpost).
  split; [|exact Hpost].
  rewrite forallb_app, Hp, Hpre. reflexivity.
Qed.

Lemma SingleError_now {T} (ctx : GoContext) (ev : Event T) (err : error) (k : nat) :
  failure ev = Some err ->
  SingleError (ev :: fst (pushError T ctx k err)) (snd (pushError T ctx k err)).
Proof.
  intros Hev pre ev' post err' Heq Hfail.
  unfold pushError in *.
  destruct (ctx_Done ctx k); simpl in *.
  - destruct pre as [|e0 pre]; simpl in Heq; injection Heq as <- Heq.
    + subst post. rewrite Hev in Hfail. injection Hfail as <-.
      split; [reflexivity|]. exists k. right. split; reflexivity.
    + exfalso.
      repeat (destruct pre as [|? pre]; simpl in Heq;
              [injection Heq as <- _; discriminate | injection Heq as _ Heq]).
      destruct pre; discriminate.
  - destruct pre as [|e0 pre]; simpl in Heq; injection Heq as <- Heq.
    + subst post. rewrite Hev in Hfail. injection Hfail as <-.
      split; [reflexivity|]. exists k. left. split; reflexivity.
    + exfalso.
      repeat (destruct pre as [|? pre]; simpl in Heq;
              [injection Heq as <- _; discriminate | injection Heq as _ Heq]).
      destruct pre; discriminate.
Qed.

Lemma seq_split (s n : nat) (l1 l2 : list nat) (k : nat) :
  seq s n = l1 ++ k :: l2 -> k = s + List.length l1.
Proof.
  revert s n.
  induction l1 as [|x l1 IH]; intros s n Hseq.
  - destruct n as [|n]; simpl in Hseq; [discriminate|].
    injection Hseq as <- _. simpl. lia.
  - destruct n as [|n]; simpl in Hseq; [discriminate|].
    injection Hseq as _ Hseq. apply IH in Hseq. simpl. lia.
Qed.

Lemma Numbered_nil {T} (ctx : GoContext) (k : nat) : Numbered ctx k (@nil (Event T)).
Proof. split; [reflexivity | intros j b []]. Qed.

Lemma Numbered_checkpoint {T} (ctx : GoContext) (k : nat) (b : bool)
    (t : list (Event T)) :
  ctx_Done ctx k = b -> Numbered ctx (S k) t -> Numbered ctx k (Checkpoint k b :: t).
Proof.
  intros Hb [Hseq Hin]. split.
  - simpl. rewrite Hseq at 1. reflexivity.
  - intros j b' [Heq|Hj].
    + injection Heq as <- <-. symmetry. exact Hb.
    + apply Hin. exact Hj.
Qed.

Lemma Numbered_other {T} (ctx : GoContext) (k : nat) (ev : Event T)
    (t : list (Event T)) :
  checkpoints [ev] = [] -> Numbered ctx k t -> Numbered ctx k (ev :: t).
Proof.
  intros Hev [Hseq Hin]. split.
  - destruct ev; simpl in *; try discriminate; exact Hseq.
  - intros j b [Heq|Hj].
    + subst ev. discriminate.
    + apply Hin. exact Hj.
Qed.

Lemma Numbered_app {T} (ctx : GoContext) (k : nat) (t1 t2 : list (Event T)) :
  Numbered ctx k t1 ->
  Numbered ctx (k + List.length (checkpoints t1)) t2 ->
  Numbered ctx k (t1 ++ t2).
Proof.
  intros [Hseq1 Hin1] [Hseq2 Hin2]. split.
  - rewrite checkpoints_app, length_app, seq_app, <- Hseq1, <- Hseq2. reflexivity.
  - intros j b Hj. apply in_app_or in Hj. destruct Hj as [Hj|Hj].
    + apply Hin1. exact Hj.
    + apply Hin2. exact Hj.
Qed.

Lemma guardedFrom_any {T} (t : list (Event T)) (ok : bool) :
  guardedFrom false t = true -> guardedFrom ok t = true.
Proof.
  destruct t as [|ev t]; [reflexivity|]. simpl.
  destruct (effect ev); [discriminate|]. intro Ht. exact Ht.
Qed.

Lemma guardedFrom_app {T} (t1 t2 : list (Event T)) (ok : bool) :
  guardedFrom ok t1 = true -> guardedFrom false t2 = true ->
  guardedFrom ok (t1 ++ t2) = true.
Proof.
  revert ok.
  induction t1 as [|ev t1 IH]; intros ok H1 H2; simpl in *.
  - apply guardedFrom_any. exact H2.
  - apply andb_prop in H1. destruct H1 as [Hev H1].
    rewrite Hev. simpl. apply IH; assumption.
Qed.

Lemma guardedFrom_spec {T} (t : list (Event T)) :
  forall (ok : bool) (pre : list (Event T)) (ev : Event T) (post : list (Event T)),
    guardedFrom ok t = true ->
    t = pre ++ ev :: post ->
    effect ev = true ->
    (pre = [] /\ ok = true) \/ exists pre' j, pre = pre' ++ [Checkpoint j false].
Proof.
  induction t as [|e t IH]; intros ok pre ev post Hguard Heq Hev.
  - destruct pre; discriminate.
  - simpl in Hguard. apply andb_prop in Hguard. destruct Hguard as [He Ht].
    destruct pre as [|e0 pre]; simpl in Heq; injection Heq as <- Heq.
    + left. rewrite Hev in He. split; [reflexivity | exact He].
    + right.
      destruct (IH _ _ _ _ Ht Heq Hev) as [[-> Hpassed]|(pre' & j & ->)].
      * destruct e as [j [|]| | | | |]; try discriminate.
        exists [], j. reflexivity.
      * exists (e :: pre'), j. reflexivity.
Qed.

(** ** The executor in any context *)

Section AnyContext.

Variables W E T : Type.
Variable ctx : GoContext.
Variable loadPageFn :
  option Cursor -> W -> (option PageInfo * slice E * option error) * W.
Variable edgeFn : E -> GoResult (option Cursor * option T * option error).

Lemma drain_single_error (edges : list E) (k : nat) :
  match snd (drain ctx edgeFn edges k) with
  | inr _ => forallb quiet (fst (drain ctx edgeFn edges k)) = true
  | inl f => SingleError (fst (drain ctx edgeFn edges k)) f
  end.
Proof.
  revert k.
  induction edges as [|edge rest IH]; intro k; [reflexivity|].
  simpl.
  destruct (edgeFn edge) as [[[cursor item] err]|p].
  - destruct item as [item|], err as [err|].
    + pose proof (@SingleError_now T ctx (ExtractorCall (Some err)) err k eq_refl) as Hs.
      destruct (pushError T ctx k err) as [t f]. exact Hs.
    + destruct (ctx_Done ctx k); [apply SingleError_quiet; reflexivity|].
      specialize (IH (S k)).
      destruct (drain ctx edgeFn rest (S k)) as [t r].
      simpl in *. destruct r as [f|k'].
      * apply (SingleError_prefix
                 [ExtractorCall None; Checkpoint k false; Push (ListItemValue item)]
                 (eq_refl true) IH).
      * exact IH.
    + pose proof (@SingleError_now T ctx (ExtractorCall (Some err)) err k eq_refl) as Hs.
      destruct (pushError T ctx k err) as [t f]. exact Hs.
    + specialize (IH k).
      destruct (drain ctx edgeFn rest k) as [t r].
      simpl in *. destruct r as [f|k'].
      * apply (SingleError_prefix [ExtractorCall None] (eq_refl true) IH).
      * exact IH.
  - apply SingleError_quiet. reflexivity.
Qed.

Lemma fetch_page (fuel : nat) (cursor : option Cursor) (k : nat) (w w' : W)
    (info : PageInfo) (edges : slice E) (t : list (Event T)) (k' : nat) :
  ctx_Done ctx k = false ->
  loadPageFn cursor w = ((Some info, edges, None), w') ->
  drain ctx edgeFn (elems edges) (S k) = (t, inr k') ->
  fetch ctx loadPageFn edgeFn (S fuel) cursor k w
  = let page := Checkpoint k false :: LoaderCall cursor None :: t in
    if hasNextPage info then
      match endCursor info with
      | None =>
          {| trace := page ++ fst (pushError T ctx k' ErrProtocolViolation);
             final := snd (pushError T ctx k' ErrProtocolViolation);
             world := w' |}
      | Some next =>
          let r' := fetch ctx loadPageFn edgeFn fuel (Some next) k' w' in
          {| trace := page ++ trace r'; final := final r'; world := world r' |}
      end
    else {| trace := page ++ [Close]; final := Done; world := w' |}.
Proof.
  intros Hk Hload Hdrain. simpl. rewrite Hk, Hload, Hdrain.
  destruct (hasNextPage info); [|reflexivity].
  destruct (endCursor info); [reflexivity|].
  destruct (pushError T ctx k' ErrProtocolViolation). reflexivity.
Qed.

Lemma fetch_single_error (fuel : nat) (cursor : option Cursor) (k : nat) (w : W) :
  SingleError (trace (fetch ctx loadPageFn edgeFn fuel cursor k w))
              (final (fetch ctx loadPageFn edgeFn fuel cursor k w)).
Proof.
  revert cursor k w.
  induction fuel as [|fuel IH]; intros cursor k w.
  - apply SingleError_quiet. reflexivity.
  - simpl.
    destruct (ctx_Done ctx k); [apply SingleError_quiet; reflexivity|].
    destruct (loadPageFn cursor w) as [[[pageInfo edges] err] w'].
    destruct err as [err|].
    + pose proof (@SingleError_now T ctx (LoaderCall cursor (Some err)) err (S k) eq_refl)
        as Hs.
      destruct (pushError T ctx (S k) err) as [t f]. simpl in *.
      apply (SingleError_prefix [Checkpoint k false] (eq_refl true) Hs).
    + destruct pageInfo as [info|]; [|apply SingleError_quiet; reflexivity].
      pose proof (drain_single_error (elems edges) (S k)) as Hdrain.
      destruct (drain ctx edgeFn (elems edges) (S k)) as [t r].
      simpl in Hdrain.
      destruct r as [f|k'].
      * apply (SingleError_prefix [Checkpoint k false; LoaderCall cursor None]
                 (eq_refl true) Hdrain).
      * assert (Hpage : forallb quiet (Checkpoint k false :: LoaderCall cursor None :: t)
                        = true) by exact Hdrain.
        destruct (hasNextPage info).
        -- destruct (endCursor info) as [next|].
           ++ apply (SingleError_prefix _ Hpage). apply IH.
           ++ destruct (pushError T ctx k' ErrProtocolViolation) as [t' f'] eqn:Hpush.
              simpl.
              intros pre ev post err Heq Hfail. exfalso.
              destruct (app_split_prefix quiet _ _ pre post ev Hpage
                          (failure_not_quiet _ Hfail) Heq) as (pre' & _ & Heq').
              unfold pushError in Hpush.
              destruct (ctx_Done ctx k'); injection Hpush as <- <-;
                repeat (destruct pre' as [|? pre']; simpl in Heq';
                        [injection Heq' as <- _; discriminate
                        | injection Heq' as _ Heq']);
                destruct pre'; discriminate.
        -- apply SingleError_quiet. simpl in *.
           rewrite forallb_app, Hdrain. reflexivity.
Qed.

Lemma pushError_numbered (k : nat) (err : error) :
  Numbered ctx k (fst (pushError T ctx k err)).
Proof.
  unfold pushError.
  destruct (ctx_Done ctx k) eqn:Hk; simpl;
    (apply Numbered_checkpoint; [exact Hk|]);
    repeat (apply Numbered_other; [reflexivity|]); apply Numbered_nil.
Qed.

Lemma drain_numbered (edges : list E) (k : nat) :
  Numbered ctx k (fst (drain ctx edgeFn edges k))
  /\ match snd (drain ctx edgeFn edges k) with
     | inr k' => k' = k + List.length (checkpoints (fst (drain ctx edgeFn edges k)))
     | inl _ => True
     end.
Proof.
  revert k.
  induction edges as [|edge rest IH]; intro k.
  - simpl. split; [apply Numbered_nil | lia].
  - simpl.
    destruct (edgeFn edge) as [[[cursor item] err]|p].
    + destruct item as [item|], err as [err|].
      * pose proof (pushError_numbered k err) as Hn.
        destruct (pushError T ctx k err) as [t f]. simpl in *.
        split; [apply Numbered_other; [reflexivity | exact Hn] | exact I].
      * destruct (ctx_Done ctx k) eqn:Hk.
        -- simpl. split; [|exact I].
           apply Numbered_other; [reflexivity|].
           apply Numbered_checkpoint; [exact Hk|].
           apply Numbered_other; [reflexivity | apply Numbered_nil].
        -- destruct (IH (S k)) as [Hn Hr].
           destruct (drain ctx edgeFn rest (S k)) as [t r]. simpl in *.
           split.
           ++ apply Numbered_other; [reflexivity|].
              apply Numbered_checkpoint; [exact Hk|].
              apply Numbered_other; [reflexivity | exact Hn].
           ++ destruct r as [f|k']; [exact I | lia].
      * pose proof (pushError_numbered k err) as Hn.
        destruct (pushError T ctx k err) as [t f]. simpl in *.
        split; [apply Numbered_other; [reflexivity | exact Hn] | exact I].
      * destruct (IH k) as [Hn Hr].
        destruct (drain ctx edgeFn rest k) as [t r]. simpl in *.
        split; [apply Numbered_other; [reflexivity | exact Hn] | exact Hr].
    + simpl. split; [|exact I].
      apply Numbered_other; [reflexivity | apply Numbered_nil].
Qed.

Lemma fetch_numbered (fuel : nat) (cursor : option Cursor) (k : nat) (w : W) :
  Numbered ctx k (trace (fetch ctx loadPageFn edgeFn fuel cursor k w)).
Proof.
  revert cursor k w.
  induction fuel as [|fuel IH]; intros cursor k w; [apply Numbered_nil|].
  simpl.
  destruct (ctx_Done ctx k) eqn:Hk.
  - simpl. apply Numbered_checkpoint; [exact Hk|].
    apply Numbered_other; [reflexivity | apply Numbered_nil].
  - destruct (loadPageFn cursor w) as [[[pageInfo edges] err] w'].
    destruct err as [err|].
    + pose proof (pushError_numbered (S k) err) as Hn.
      destruct (pushError T ctx (S k) err) as [t f]. simpl in *.
      apply Numbered_checkpoint; [exact Hk|].
      apply Numbered_other; [reflexivity | exact Hn].
    + destruct pageInfo as [info|].
      2:{ simpl. apply Numbered_checkpoint; [exact Hk|].
          repeat (apply Numbered_other; [reflexivity|]). apply Numbered_nil. }
      destruct (drain_numbered (elems edges) (S k)) as [Hn Hr].
      destruct (drain ctx edgeFn (elems edges) (S k)) as [t r].
      simpl in Hn, Hr.
      assert (Hpage : Numbered ctx k (Checkpoint k false :: LoaderCall cursor None :: t)).
      { apply Numbered_checkpoint; [exact Hk|].
        apply Numbered_other; [reflexivity | exact Hn]. }
      destruct r as [f|k']; [exact Hpage|].
      assert (Hnext : k' = k + List.length
                                 (checkpoints (Checkpoint k false
                                                 :: LoaderCall cursor None :: t)))
        by (simpl; lia).
      destruct (hasNextPage info).
      * destruct (endCursor info) as [next|].
        -- simpl. apply (Numbered_app Hpage). rewrite <- Hnext. apply IH.
        -- pose proof (pushError_numbered k' ErrProtocolViolation) as Hn'.
           destruct (pushError T ctx k' ErrProtocolViolation) as [t' f'].
           simpl in Hn' |- *.
           apply (Numbered_app Hpage). rewrite <- Hnext. exact Hn'.
      * simpl. apply (Numbered_app Hpage).
        apply Numbered_other; [reflexivity | apply Numbered_nil].
Qed.

Lemma drain_guarded (edges : list E) (k : nat) :
  guardedFrom false (fst (drain ctx edgeFn edges k)) = true.
Proof.
  revert k.
  induction edges as [|edge rest IH]; intro k; [reflexivity|].
  simpl.
  destruct (edgeFn edge) as [[[cursor item] err]|p]; [|reflexivity].
  destruct item as [item|], err as [err|];
    try (unfold pushError; destruct (ctx_Done ctx k); reflexivity).
  - destruct (ctx_Done ctx k); [reflexivity|].
    specialize (IH (S k)). destruct (drain ctx edgeFn rest (S k)) as [t r].
    exact IH.
  - specialize (IH k). destruct (drain ctx edgeFn rest k) as [t r]. exact IH.
Qed.

Lemma fetch_guarded (fuel : nat) (cursor : option Cursor) (k : nat) (w : W) :
  guardedFrom false (trace (fetch ctx loadPageFn edgeFn fuel cursor k w)) = true.
Proof.
  revert cursor k w.
  induction fuel as [|fuel IH]; intros cursor k w; [reflexivity|].
  simpl.
  destruct (ctx_Done ctx k); [reflexivity|].
  destruct (loadPageFn cursor w) as [[[pageInfo edges] err] w'].
  destruct err as [err|].
  - unfold pushError. destruct (ctx_Done ctx (S k)); reflexivity.
  - destruct pageInfo as [info|]; [|reflexivity].
    pose proof (drain_guarded (elems edges) (S k)) as Hdrain.
    destruct (drain ctx edgeFn (elems edges) (S k)) as [t r].
    simpl in Hdrain.
    assert (Hpage : guardedFrom false
                      (Checkpoint k false :: LoaderCall cursor None :: t) = true)
      by exact Hdrain.
    destruct r as [f|k']; [exact Hpage|].
    destruct (hasNextPage info).
    + destruct (endCursor info) as [next|].
      * simpl trace. apply (@guardedFrom_app T _ _ false Hpage). apply IH.
      * unfold pushError. destruct (ctx_Done ctx k'); simpl trace;
          apply (@guardedFrom_app T _ _ false Hpage); reflexivity.
    + simpl trace. apply (@guardedFrom_app T _ _ false Hpage). reflexivity.
Qed.

(** C5, amended: in any context, let a call of the loader or of the
    extractor return an error, and let the context not be cancelled at the
    checkpoint the worker reaches next (its number is the number of
    checkpoints before the call).  Then the worker does exactly this after
    the call: that checkpoint, the push of one item carrying that error,
    and the closing of the stream; no call is made again.  The stream is
    the items pushed before the failed call, all of them values, followed
    by the error item, and the run is in its error state. *)
Theorem single_error_termination (fuel : nat) (w : W)
    (pre : list (Event T)) (ev : Event T) (post : list (Event T)) (err : error) :
  let run := PaginationExecutor ctx loadPageFn edgeFn fuel w in
  trace run = pre ++ ev :: post ->
  failure ev = Some err ->
  ctx_Done ctx (List.length (checkpoints pre)) = false ->
  post = [Checkpoint (List.length (checkpoints pre)) false;
          Push (ListItemError err); Close]
  /\ stream (trace run) = stream pre ++ [ListItemError err]
  /\ forallb isValue (stream pre) = true
  /\ loaderCalls post = []
  /\ final run = Errored.
Proof.
  intros run Htrace Hfail Hctx.
  pose proof (fetch_single_error fuel None 0 w) as Hsingle.
  destruct (Hsingle _ _ _ _ Htrace Hfail) as (Hpre & k & Hpost).
  destruct (fetch_numbered fuel None 0 w) as [Hseq Hin].
  change (trace (fetch ctx loadPageFn edgeFn fuel None 0 w)) with (trace run)
    in Hseq, Hin.
  assert (Hev : checkpoints (ev :: post) = checkpoints post).
  { destruct ev as [j b|cursor [e|]|[e|]|p|item|]; simpl in Hfail;
      try discriminate; reflexivity. }
  assert (Hk : forall b rest, post = Checkpoint k b :: rest ->
               k = List.length (checkpoints pre) /\ b = false).
  { intros b rest Hrest.
    assert (Hnum : k = List.length (checkpoints pre)).
    { rewrite Htrace, checkpoints_app, Hev, Hrest in Hseq. simpl in Hseq.
      symmetry in Hseq. apply seq_split in Hseq. exact Hseq. }
    split; [exact Hnum|].
    rewrite <- Hctx, <- Hnum. apply Hin.
    rewrite Htrace, Hrest. apply in_or_app. right. right. left. reflexivity. }
  destruct Hpost as [[Hpost Hfinal]|[Hpost _]].
  - destruct (Hk _ _ Hpost) as [<- _].
    split; [exact Hpost|].
    split.
    { rewrite Htrace, stream_app. rewrite Hpost.
      destruct ev as [j b|cursor [e|]|[e|]|p|item|]; simpl in *;
        try discriminate; reflexivity. }
    split; [apply quiet_stream_values; exact Hpre|].
    split; [rewrite Hpost; reflexivity | exact Hfinal].
  - destruct (Hk _ _ Hpost) as [_ Hb]. discriminate.
Qed.

End AnyContext.

(** ** The executor under cancellation *)

Lemma CancelObserved_passed {T} (t : list (Event T)) (f : Final) :
  forallb passed t = true -> CancelObserved t f.
Proof.
  intros Hp pre j post ->.
  rewrite forallb_app in Hp. apply andb_prop in Hp. destruct Hp as [_ Hp].
  simpl in Hp. discriminate.
Qed.

Lemma CancelObserved_prefix {T} (p t : list (Event T)) (f : Final) :
  forallb passed p = true -> CancelObserved t f -> CancelObserved (p ++ t) f.
Proof.
  intros Hp Ht pre j post Heq.
  destruct (app_split_prefix passed p t pre post (Checkpoint j true) Hp
              (eq_refl false) Heq) as (pre' & -> & Heq').
  destruct (Ht pre' j post Heq') as (Hpost & Hf & Hpre).
  split; [exact Hpost|]. split; [exact Hf|].
  rewrite forallb_app, Hp, Hpre. reflexivity.
Qed.

Lemma CancelObserved_now {T} (j : nat) :
  CancelObserved [@Checkpoint _ T j true; Close] Cancelled.
Proof.
  intros pre j' post Heq.
  destruct pre as [|e0 pre]; simpl in Heq; injection Heq as Hev Heq.
  - subst post. repeat split.
  - exfalso. destruct pre as [|e1 pre]; simpl in Heq.
    + injection Heq as Hev' _. discriminate.
    + injection Heq as _ Heq. destruct pre; discriminate.
Qed.

Lemma WellNumbered_nil {T} (c k : nat) : WellNumbered c k (@nil (Event T)).
Proof. split; [reflexivity | intros j b []]. Qed.

Lemma WellNumbered_checkpoint {T} (c k : nat) (t : list (Event T)) :
  k <= c -> WellNumbered c (S k) t -> WellNumbered c k (Checkpoint k (c <=? k) :: t).
Proof.
  intros Hk [Hseq Hin]. split.
  - simpl. rewrite Hseq at 1. reflexivity.
  - intros j b [Heq|Hj].
    + injection Heq as <- <-. split; [reflexivity | exact Hk].
    + apply Hin. exact Hj.
Qed.

Lemma WellNumbered_other {T} (c k : nat) (ev : Event T) (t : list (Event T)) :
  checkpoints [ev] = [] -> WellNumbered c k t -> WellNumbered c k (ev :: t).
Proof.
  intros Hev [Hseq Hin]. split.
  - destruct ev; simpl in *; try discriminate; exact Hseq.
  - intros j b [Heq|Hj].
    + subst ev. discriminate.
    + apply Hin. exact Hj.
Qed.

Lemma WellNumbered_app {T} (c k : nat) (t1 t2 : list (Event T)) :
  WellNumbered c k t1 ->
  WellNumbered c (k + List.length (checkpoints t1)) t2 ->
  WellNumbered c k (t1 ++ t2).
Proof.
  intros [Hseq1 Hin1] [Hseq2 Hin2]. split.
  - rewrite checkpoints_app, length_app, seq_app, <- Hseq1, <- Hseq2. reflexivity.
  - intros j b Hj. apply in_app_or in Hj. destruct Hj as [Hj|Hj].
    + apply Hin1. exact Hj.
    + apply Hin2. exact Hj.
Qed.

Section Cancelled.

Variables W E T : Type.
Variable c : nat.
Variable loadPageFn :
  option Cursor -> W -> (option PageInfo * slice E * option error) * W.
Variable edgeFn : E -> GoResult (option Cursor * option T * option error).

Lemma pushError_cancel (k : nat) (err : error) :
  k <= c ->
  WellNumbered c k (fst (pushError T (WithCancelAt c) k err))
  /\ CancelObserved (fst (pushError T (WithCancelAt c) k err))
                    (snd (pushError T (WithCancelAt c) k err))
  /\ snd (pushError T (WithCancelAt c) k err) <> Running.
Proof.
  intro Hk. unfold pushError, ctx_Done. simpl.
  destruct (c <=? k) eqn:Hck; simpl.
  - split; [|split; [apply CancelObserved_now | discriminate]].
    rewrite <- Hck. apply WellNumbered_checkpoint; [exact Hk|].
    apply WellNumbered_other; [reflexivity | apply WellNumbered_nil].
  - split; [|split; [apply CancelObserved_passed; reflexivity | discriminate]].
    rewrite <- Hck. apply WellNumbered_checkpoint; [exact Hk|].
    repeat (apply WellNumbered_other; [reflexivity|]). apply WellNumbered_nil.
Qed.

Lemma drain_cancel (edges : list E) (k : nat) :
  k <= c ->
  WellNumbered c k (fst (drain (WithCancelAt c) edgeFn edges k))
  /\ match snd (drain (WithCancelAt c) edgeFn edges k) with
     | inr k' =>
         forallb passed (fst (drain (WithCancelAt c) edgeFn edges k)) = true
         /\ k' = k + List.length
                       (checkpoints (fst (drain (WithCancelAt c) edgeFn edges k)))
         /\ k' <= c
     | inl f =>
         CancelObserved (fst (drain (WithCancelAt c) edgeFn edges k)) f
         /\ f <> Running
     end.
Proof.
  revert k.
  induction edges as [|edge rest IH]; intros k Hk.
  - simpl. split; [apply WellNumbered_nil|].
    split; [reflexivity|]. split; [lia | exact Hk].
  - simpl.
    destruct (edgeFn edge) as [[[cursor item] err]|msg].
    + destruct item as [item|], err as [err|].
      * destruct (pushError_cancel err Hk) as (Hn & Ho & Hf).
        destruct (pushError T (WithCancelAt c) k err) as [t f]. simpl in *.
        split; [apply WellNumbered_other; [reflexivity | exact Hn]|].
        split; [|exact Hf].
        apply (CancelObserved_prefix [ExtractorCall (Some err)] (eq_refl true) Ho).
      * unfold ctx_Done. simpl.
        destruct (c <=? k) eqn:Hck.
        -- simpl. split.
           ++ apply WellNumbered_other; [reflexivity|].
              rewrite <- Hck. apply WellNumbered_checkpoint; [exact Hk|].
              apply WellNumbered_other; [reflexivity | apply WellNumbered_nil].
           ++ split; [|discriminate].
              apply (CancelObserved_prefix [ExtractorCall None] (eq_refl true)).
              apply CancelObserved_now.
        -- apply Nat.leb_gt in Hck.
           assert (HSk : S k <= c) by lia.
           destruct (IH (S k) HSk) as [Hn Hr].
           destruct (drain (WithCancelAt c) edgeFn rest (S k)) as [t r].
           simpl in *. split.
           ++ apply WellNumbered_other; [reflexivity|].
              replace false with (c <=? k) by (apply Nat.leb_gt; lia).
              apply WellNumbered_checkpoint; [exact Hk|].
              apply WellNumbered_other; [reflexivity | exact Hn].
           ++ destruct r as [f|k'].
              ** destruct Hr as [Ho Hf]. split; [|exact Hf].
                 apply (CancelObserved_prefix
                          [ExtractorCall None; Checkpoint k false;
                           Push (ListItemValue item)] (eq_refl true) Ho).
              ** destruct Hr as (Hp & Hk' & Hc).
                 split; [exact Hp|]. split; [lia | exact Hc].
      * destruct (pushError_cancel err Hk) as (Hn & Ho & Hf).
        destruct (pushError T (WithCancelAt c) k err) as [t f]. simpl in *.
        split; [apply WellNumbered_other; [reflexivity | exact Hn]|].
        split; [|exact Hf].
        apply (CancelObserved_prefix [ExtractorCall (Some err)] (eq_refl true) Ho).
      * destruct (IH k Hk) as [Hn Hr].
        destruct (drain (WithCancelAt c) edgeFn rest k) as [t r].
        simpl in *. split.
        -- apply WellNumbered_other; [reflexivity | exact Hn].
        -- destruct r as [f|k'].
           ++ destruct Hr as [Ho Hf]. split; [|exact Hf].
              apply (CancelObserved_prefix [ExtractorCall None] (eq_refl true) Ho).
           ++ exact Hr.
    + simpl. split.
      * apply WellNumbered_other; [reflexivity | apply WellNumbered_nil].
      * split; [apply CancelObserved_passed; reflexivity | discriminate].
Qed.

Lemma fetch_cancel (fuel : nat) (cursor : option Cursor) (k : nat) (w : W) :
  k <= c ->
  WellNumbered c k (trace (fetch (WithCancelAt c) loadPageFn edgeFn fuel cursor k w))
  /\ CancelObserved (trace (fetch (WithCancelAt c) loadPageFn edgeFn fuel cursor k w))
                    (final (fetch (WithCancelAt c) loadPageFn edgeFn fuel cursor k w))
  /\ (c < fuel + k ->
      final (fetch (WithCancelAt c) loadPageFn edgeFn fuel cursor k w) <> Running).
Proof.
  revert cursor k w.
  induction fuel as [|fuel IH]; intros cursor k w Hk.
  - simpl. split; [apply WellNumbered_nil|].
    split; [apply CancelObserved_passed; reflexivity | lia].
  - simpl. unfold ctx_Done. simpl.
    destruct (c <=? k) eqn:Hck.
    + simpl. split; [|split; [apply CancelObserved_now | discriminate]].
      rewrite <- Hck. apply WellNumbered_checkpoint; [exact Hk|].
      apply WellNumbered_other; [reflexivity | apply WellNumbered_nil].
    + assert (Hnow : (c <=? k) = false) by exact Hck.
      apply Nat.leb_gt in Hck.
      assert (HSk : S k <= c) by lia.
      destruct (loadPageFn cursor w) as [[[pageInfo edges] err] w'].
      destruct err as [err|].
      * destruct (pushError_cancel err HSk) as (Hn & Ho & Hf).
        destruct (pushError T (WithCancelAt c) (S k) err) as [t f]. simpl in *.
        split; [|split; [|intros _; exact Hf]].
        -- rewrite <- Hnow. apply WellNumbered_checkpoint; [exact Hk|].
           apply WellNumbered_other; [reflexivity | exact Hn].
        -- apply (CancelObserved_prefix
                    [Checkpoint k false; LoaderCall cursor (Some err)]
                    (eq_refl true) Ho).
      * destruct pageInfo as [info|].
        2:{ simpl. split; [|split; [apply CancelObserved_passed; reflexivity
                                   | discriminate]].
            rewrite <- Hnow. apply WellNumbered_checkpoint; [exact Hk|].
            repeat (apply WellNumbered_other; [reflexivity|]).
            apply WellNumbered_nil. }
        destruct (drain_cancel (elems edges) HSk) as [Hn Hr].
        destruct (drain (WithCancelAt c) edgeFn (elems edges) (S k)) as [t r].
        simpl in Hn, Hr.
        assert (Hpage : WellNumbered c k
                          (Checkpoint k false :: LoaderCall cursor None :: t)).
        { rewrite <- Hnow. apply WellNumbered_checkpoint; [exact Hk|].
          apply WellNumbered_other; [reflexivity | exact Hn]. }
        destruct r as [f|k'].
        -- destruct Hr as [Ho Hf]. simpl.
           split; [exact Hpage|]. split; [|intros _; exact Hf].
           apply (CancelObserved_prefix [Checkpoint k false; LoaderCall cursor None]
                    (eq_refl true) Ho).
        -- destruct Hr as (Hp & Hk' & Hc).
           assert (Hpassed : forallb passed
                               (Checkpoint k false :: LoaderCall cursor None :: t) = true)
             by exact Hp.
           assert (Hnext : k' = k + List.length
                                      (checkpoints (Checkpoint k false
                                                      :: LoaderCall cursor None :: t)))
             by (simpl; lia).
           destruct (hasNextPage info).
           ++ destruct (endCursor info) as [next|].
              ** destruct (IH (Some next) k' w' Hc) as (Hn' & Ho' & Hf').
                 simpl.
                 split; [|split].
                 --- apply (WellNumbered_app Hpage).
                     rewrite <- Hnext. exact Hn'.
                 --- apply (CancelObserved_prefix _ Hpassed Ho').
                 --- intro Hfuel. apply Hf'. lia.
              ** destruct (pushError_cancel ErrProtocolViolation Hc) as (Hn' & Ho' & Hf').
                 destruct (pushError T (WithCancelAt c) k' ErrProtocolViolation)
                   as [t' f'].
                 simpl in Hn', Ho', Hf' |- *.
                 split; [|split; [|intros _; exact Hf']].
                 --- apply (WellNumbered_app Hpage).
                     rewrite <- Hnext. exact Hn'.
                 --- apply (CancelObserved_prefix _ Hpassed Ho').
           ++ simpl. split; [|split; [|discriminate]].
              ** apply (WellNumbered_app Hpage).
                 apply WellNumbered_other; [reflexivity | apply WellNumbered_nil].
              ** apply CancelObserved_passed.
                 change (forallb passed
                           ((Checkpoint k false :: LoaderCall cursor None :: t)
                              ++ [Close]) = true).
                 rewrite forallb_app, Hpassed. reflexivity.
Qed.


End Cancelled.

(** ** Listing access providers *)

Lemma drain_values (ctx : GoContext)
    (edges : list AccessProviderPageEdgesEdge) (aps : list AccessProvider) (k : nat) :
  Forall2 holds edges aps ->
  (forall j, k <= j < k + List.length aps -> ctx_Done ctx j = false) ->
  exists t,
    drain ctx ListAccessProviders_edgeFn edges k
    = (t, inr (k + List.length aps))
    /\ stream t = map ListItemValue aps
    /\ loaderCalls t = [].
Proof.
  intro Hall. revert k.
  induction Hall as [|edge ap edges aps Hedge Hall IH]; intros k Hctx.
  - exists []. simpl. rewrite Nat.add_0_r. repeat split.
  - destruct (IH (S k)) as (t & Hdrain & Hstream & Hcalls).
    { intros j Hj. apply Hctx. simpl. lia. }
    exists (ExtractorCall None :: Checkpoint k false :: Push (ListItemValue ap) :: t).
    assert (Hreturn : ListAccessProviders_edgeFn edge
                      = Returned (ap_Cursor edge, Some ap, None)).
    { unfold ListAccessProviders_edgeFn. rewrite Hedge. reflexivity. }
    assert (Hk : ctx_Done ctx k = false) by (apply Hctx; simpl; lia).
    simpl. rewrite Hreturn, Hk, Hdrain. simpl. rewrite Hstream, Hcalls.
    rewrite <- plus_n_Sm. repeat split.
Qed.

Lemma fetch_pages (a : AccessProviderClient) (options : AccessProviderListOptions)
    (ctx : GoContext) (pages : list Page) :
  forall (aps : list AccessProvider) (fuel : nat) (cursor : option Cursor)
         (k : nat) (w : World),
    chained pages ->
    loaderReturns (ListAccessProviders_loadPageFn a options) cursor w pages ->
    Forall2 holds (allEdges pages) aps ->
    (forall j, k <= j < k + (List.length pages + List.length aps) ->
               ctx_Done ctx j = false) ->
    List.length pages <= fuel ->
    let run := fetch ctx (ListAccessProviders_loadPageFn a options)
                     ListAccessProviders_edgeFn fuel cursor k w in
    stream (trace run) = map ListItemValue aps
    /\ final run = Done
    /\ (exists t, trace run = t ++ [Close])
    /\ List.length (loaderCalls (trace run)) = List.length pages.
Proof.
  induction pages as [|page rest IH];
    intros aps fuel cursor k w Hchain Hloads Hall Hctx Hfuel; [destruct Hchain|].
  destruct fuel as [|fuel]; [simpl in Hfuel; lia|].
  simpl in Hfuel. apply le_S_n in Hfuel.
  unfold allEdges in Hall. simpl in Hall.
  apply Forall2_app_inv_l in Hall.
  destruct Hall as (aps1 & aps2 & Hall1 & Hall2 & ->).
  rewrite length_app in Hctx. simpl in Hctx.
  destruct (@drain_values ctx _ _ (S k) Hall1) as (t & Hdrain & Hstream & Hcalls).
  { intros j Hj. apply Hctx. lia. }
  assert (Hk : ctx_Done ctx k = false) by (apply Hctx; lia).
  destruct Hloads as [Hload Hloads].
  destruct (ListAccessProviders_loadPageFn a options cursor w) as [out w'] eqn:Hout.
  simpl in Hload, Hloads. subst out.
  cbv zeta.
  erewrite fetch_page; [|exact Hk|exact Hout|exact Hdrain].
  cbv zeta.
  destruct rest as [|page' rest].
  - simpl in Hchain. rewrite Hchain. cbn [trace final world].
    inversion Hall2; subst.
    rewrite stream_app, loaderCalls_app, app_nil_r.
    cbn [stream loaderCalls]. rewrite Hstream, Hcalls, !app_nil_r.
    split; [reflexivity|]. split; [reflexivity|].
    split; [|reflexivity].
    exists (Checkpoint k false :: LoaderCall cursor None :: t). reflexivity.
  - destruct Hchain as (Hnext & Hcursor & Hchain).
    rewrite Hnext.
    destruct (endCursor (fst page)) as [next|] eqn:Hend; [|congruence].
    destruct (IH aps2 fuel (Some next) (S k + List.length aps1) w'
                 Hchain Hloads Hall2) as (Hs & Hf & (t' & Ht') & Hl).
    { intros j Hj. apply Hctx. simpl in Hj |- *. lia. }
    { exact Hfuel. }
    cbn [trace final world].
    rewrite stream_app, loaderCalls_app.
    cbn [stream loaderCalls].
    rewrite Hs, Hf, Hstream, Hcalls, map_app.
    split; [reflexivity|]. split; [reflexivity|].
    split.
    + exists ((Checkpoint k false :: LoaderCall cursor None :: t) ++ t').
      rewrite Ht', app_assoc. reflexivity.
    + simpl in Hl |- *. rewrite Hl. reflexivity.
Qed.

(** C1, amended: let the successive calls of the loader of
    [ListAccessProviders] return [P] pages, each but the last announcing a
    next page with its cursor, the last announcing none; let every edge of
    these pages have a present node of the access-provider variant; and
    let the context not be cancelled at any of the first [P + n]
    checkpoints, where [n] is the number of edges.  Then, given at least
    [P] page fetches, the stream is exactly one item per edge, in edge
    order within a page and page order across pages; the loader is called
    [P] times, the run ends in its done state, and the stream is closed. *)
Theorem ListAccessProviders_exhaustive (a : AccessProviderClient) (ctx : GoContext)
    (ops : list (AccessProviderListOptions -> AccessProviderListOptions))
    (w : World) (pages : list Page) (aps : list AccessProvider) (fuel : nat) :
  chained pages ->
  loaderReturns (ListAccessProviders_loadPageFn a
                   (applyOps emptyAccessProviderListOptions ops)) None w pages ->
  Forall2 holds (allEdges pages) aps ->
  (forall k, k < List.length pages + List.length aps -> ctx_Done ctx k = false) ->
  List.length pages <= fuel ->
  let run := ListAccessProviders fuel a ctx ops w in
  stream (trace run) = map ListItemValue aps
  /\ final run = Done
  /\ (exists t, trace run = t ++ [Close])
  /\ List.length (loaderCalls (trace run)) = List.length pages.
Proof.
  intros Hchain Hloads Hall Hctx Hfuel.
  unfold ListAccessProviders, PaginationExecutor.
  apply fetch_pages; try assumption.
  intros j Hj. apply Hctx. lia.
Qed.

(** ** The requests of a run *)

Lemma fetch_history {E T : Type} (ctx : GoContext)
    (loadPageFn : option Cursor -> World
                  -> (option PageInfo * slice E * option error) * World)
    (edgeFn : E -> GoResult (option Cursor * option T * option error))
    (request : option Cursor -> Request) :
  (forall cursor w, snd (loadPageFn cursor w) = w ++ [request cursor]) ->
  forall fuel cursor k w,
    world (fetch ctx loadPageFn edgeFn fuel cursor k w)
    = w ++ map request (loaderCalls (trace (fetch ctx loadPageFn edgeFn fuel cursor k w))).
Proof.
  intros Hloader fuel.
  assert (Hdrain : forall edges k, loaderCalls (fst (drain ctx edgeFn edges k)) = []).
  { induction edges as [|edge rest IH]; intro k; [reflexivity|].
    simpl.
    destruct (edgeFn edge) as [[[cursor item] err]|msg]; [|reflexivity].
    destruct item as [item|], err as [err|];
      try (unfold pushError; destruct (ctx_Done ctx k); reflexivity).
    - destruct (ctx_Done ctx k); [reflexivity|].
      specialize (IH (S k)). destruct (drain ctx edgeFn rest (S k)). exact IH.
    - specialize (IH k). destruct (drain ctx edgeFn rest k). exact IH. }
  induction fuel as [|fuel IH]; intros cursor k w; simpl.
  - symmetry. apply app_nil_r.
  - destruct (ctx_Done ctx k); [symmetry; apply app_nil_r|].
    pose proof (Hloader cursor w) as Hw.
    destruct (loadPageFn cursor w) as [[[pageInfo edges] err] w'].
    simpl in Hw. subst w'.
    destruct err as [err|].
    + unfold pushError. destruct (ctx_Done ctx (S k)); reflexivity.
    + destruct pageInfo as [info|]; [|reflexivity].
      specialize (Hdrain (elems edges) (S k)).
      destruct (drain ctx edgeFn (elems edges) (S k)) as [t r].
      simpl in Hdrain.
      destruct r as [f|k']; [simpl; rewrite Hdrain; reflexivity|].
      destruct (hasNextPage info).
      * destruct (endCursor info) as [next|].
        -- simpl. rewrite IH, loaderCalls_app, Hdrain, <- app_assoc. reflexivity.
        -- unfold pushError. destruct (ctx_Done ctx k'); simpl;
             rewrite loaderCalls_app, Hdrain; reflexivity.
      * simpl. rewrite loaderCalls_app, Hdrain. reflexivity.
Qed.

(** Every request a run of a list method sends is the request of one of
    its loader calls, with page size 25 and the caller's options. *)
Lemma list_methods_requests (a : AccessProviderClient) (id : string)
    (ctx : GoContext) (fuel : nat) (w : World) :
  (forall ops,
      let options := applyOps emptyAccessProviderListOptions ops in
      let run := ListAccessProviders fuel a ctx ops w in
      world run
      = w ++ map (fun cursor =>
                    ReqListAccessProviders cursor (Some 25%Z)
                      (filter options) (order options))
                 (loaderCalls (trace run)))
  /\ (forall ops,
      let options := applyOps emptyAccessProviderWhoListOptions ops in
      let run := GetAccessProviderWhoList fuel a ctx id ops w in
      world run
      = w ++ map (fun cursor =>
                    ReqGetAccessProviderWhoList id cursor (Some 25%Z) None
                      (who_order options))
                 (loaderCalls (trace run)))
  /\ (forall ops,
      let options := applyOps emptyAccessProviderWhatListOptions ops in
      let run := GetAccessProviderWhatDataObjectList fuel a ctx id ops w in
      world run
      = w ++ map (fun cursor =>
                    ReqGetAccessProviderWhatDataObjectList id cursor (Some 25%Z) None
                      (what_order options))
                 (loaderCalls (trace run))).
Proof.
  destruct (loadPageFn_history a id) as (H1 & H2 & H3).
  split; [|split]; intros ops options run; subst run;
    unfold ListAccessProviders, GetAccessProviderWhoList,
      GetAccessProviderWhatDataObjectList, PaginationExecutor;
    apply fetch_history; intros cursor w0.
  - apply H1.
  - apply H2.
  - apply H3.
Qed.

End Properties.

(** * Further properties of the service client *)

Section ClientProperties.

Context `{Schema}.

(** ** The non-streaming methods *)

(** X1: [CreateAccessProvider], [UpdateAccessProvider] and
    [GetAccessProvider] return a pointer to an access provider exactly
    when the request succeeded with the success variant, and the access
    provider they return is the one of the answer. *)
Theorem non_streaming_methods_return_the_answer
    (a : AccessProviderClient) (id : string) (input : AccessProviderInput)
    (w : World) (ap : AccessProvider) :
  (fst (fst (CreateAccessProvider a input w)) = Some ap
   <-> fst (schema_CreateAccessProvider (client a) input w)
       = Ok (CreateAccessProviderCreateAccessProvider ap))
  /\ (fst (fst (UpdateAccessProvider a id input w)) = Some ap
      <-> fst (schema_UpdateAccessProvider (client a) id input w)
          = Ok (UpdateAccessProviderUpdateAccessProvider ap))
  /\ (fst (fst (GetAccessProvider a id w)) = Some ap
      <-> fst (schema_GetAccessProvider (client a) id w)
          = Ok (GetAccessProviderAccessProvider ap)).
Proof.
  unfold CreateAccessProvider, UpdateAccessProvider, GetAccessProvider,
    schema_CreateAccessProvider, schema_UpdateAccessProvider,
    schema_GetAccessProvider, roundTrip.
  simpl.
  split; [|split].
  - destruct (onCreateAccessProvider (client a) w (ReqCreateAccessProvider input))
      as [[response|Message|T]|err]; simpl; split; congruence.
  - destruct (onUpdateAccessProvider (client a) w (ReqUpdateAccessProvider id input))
      as [[response|Message|T]|err]; simpl; split; congruence.
  - destruct (onGetAccessProvider (client a) w (ReqGetAccessProvider id))
      as [[response|Message|Message|T]|err]; simpl; split; congruence.
Qed.

Lemma perform_one_request (a : AccessProviderClient) (c : MethodCall) (w : World) :
  perform a c w = w ++ [requestOf c].
Proof.
  destruct c as [ap|id ap|id|id]; simpl;
    unfold CreateAccessProvider, UpdateAccessProvider, DeleteAccessProvider,
      GetAccessProvider, schema_CreateAccessProvider, schema_UpdateAccessProvider,
      schema_DeleteAccessProvider, schema_GetAccessProvider, roundTrip;
    match goal with
    | |- context [match ?r with Ok _ => _ | Err _ => _ end] => destruct r as [[]|]
    end; reflexivity.
Qed.

(** X2: whatever the service answers, a sequence of calls of the
    non-streaming methods sends exactly one request per call, in the order
    of the calls, each carrying the arguments of its call unchanged: no
    call is repeated after an error and none sends a second request. *)
Theorem non_streaming_methods_one_request_per_call
    (a : AccessProviderClient) (calls : list MethodCall) (w : World) :
  performAll a calls w = w ++ map requestOf calls.
Proof.
  revert w.
  induction calls as [|c rest IH]; intro w; simpl.
  - symmetry. apply app_nil_r.
  - rewrite IH, perform_one_request, <- app_assoc. reflexivity.
Qed.

(** ** List options *)

Lemma append_nil_iff {A} (s : slice A) (input : list A) :
  append s input = None <-> s = None /\ input = [].
Proof.
  destruct s as [l|], input as [|x xs]; simpl; split;
    try discriminate; try (intros [? ?]; discriminate); auto.
Qed.

Lemma append_append {A} (s : slice A) (xs ys : list A) :
  append (append s xs) ys = append s (xs ++ ys).
Proof.
  destruct s as [l|], xs as [|x xs], ys as [|y ys]; simpl;
    rewrite ?app_nil_r, <- ?app_assoc; reflexivity.
Qed.

Lemma append_nothing {A} (s : slice A) : append s [] = s.
Proof. destruct s as [l|]; simpl; [rewrite app_nil_r|]; reflexivity. Qed.

(** X3: two order options in a row act as one with the inputs joined, an
    order option without input changes nothing, a filter option replaces
    the filter of an earlier one, and an order option and a filter option
    act the same in either order. *)
Theorem list_option_mutators_compose (options : AccessProviderListOptions)
    (xs ys : list AccessProviderOrderByInput)
    (f g : option AccessProviderFilterInput) :
  WithAccessProviderListOrder ys (WithAccessProviderListOrder xs options)
  = WithAccessProviderListOrder (xs ++ ys) options
  /\ WithAccessProviderListOrder [] options = options
  /\ WithAccessProviderListFilter g (WithAccessProviderListFilter f options)
     = WithAccessProviderListFilter g options
  /\ WithAccessProviderListOrder xs (WithAccessProviderListFilter f options)
     = WithAccessProviderListFilter f (WithAccessProviderListOrder xs options).
Proof.
  destruct options as [o fl].
  unfold WithAccessProviderListOrder, WithAccessProviderListFilter. simpl.
  rewrite append_append, append_nothing. repeat split.
Qed.

Lemma applyOps_who_order (inputs : list (list AccessProviderWhoOrderByInput))
    (o : AccessProviderWhoListOptions) :
  who_order (applyOps o (map WithAccessProviderWhoListOrder inputs))
  = append (who_order o) (List.concat inputs).
Proof.
  revert o.
  induction inputs as [|input rest IH]; intro o.
  - simpl. symmetry. apply append_nothing.
  - change (map WithAccessProviderWhoListOrder (input :: rest))
      with (WithAccessProviderWhoListOrder input
              :: map WithAccessProviderWhoListOrder rest).
    rewrite applyOps_cons, IH. simpl. apply append_append.
Qed.

Lemma applyOps_what_order (inputs : list (list AccessWhatOrderByInput))
    (o : AccessProviderWhatListOptions) :
  what_order (applyOps o (map WithAccessProviderWhatListOrder inputs))
  = append (what_order o) (List.concat inputs).
Proof.
  revert o.
  induction inputs as [|input rest IH]; intro o.
  - simpl. symmetry. apply append_nothing.
  - change (map WithAccessProviderWhatListOrder (input :: rest))
      with (WithAccessProviderWhatListOrder input
              :: map WithAccessProviderWhatListOrder rest).
    rewrite applyOps_cons, IH. simpl. apply append_append.
Qed.

(** X4: the order options of [GetAccessProviderWhoList] and of
    [GetAccessProviderWhatDataObjectList] accumulate: after any sequence
    of them the ordering is the concatenation of all inputs, in
    application order. *)
Theorem who_what_list_order_appends
    (whoInputs : list (list AccessProviderWhoOrderByInput))
    (whatInputs : list (list AccessWhatOrderByInput)) :
  elems (who_order (applyOps emptyAccessProviderWhoListOptions
                      (map WithAccessProviderWhoListOrder whoInputs)))
  = List.concat whoInputs
  /\ elems (what_order (applyOps emptyAccessProviderWhatListOptions
                          (map WithAccessProviderWhatListOrder whatInputs)))
     = List.concat whatInputs.
Proof.
  rewrite applyOps_who_order, applyOps_what_order, !elems_append.
  split; reflexivity.
Qed.

Lemma applyOps_order (calls : list ListOptionCall) (o : AccessProviderListOptions) :
  order (applyOps o (map optionOf calls)) = append (order o) (suppliedOrder calls).
Proof.
  revert o.
  induction calls as [|c rest IH]; intro o.
  - simpl. symmetry. apply append_nothing.
  - change (map optionOf (c :: rest)) with (optionOf c :: map optionOf rest).
    rewrite applyOps_cons, IH.
    destruct c as [input|input]; simpl.
    + apply append_append.
    + reflexivity.
Qed.

(** X5: the ordering the list methods send is the nil slice exactly when
    the caller supplied no ordering at all: no order option, or only order
    options without input.  Filter options do not change this. *)
Theorem order_is_nil_iff_nothing_supplied :
  (forall calls : list ListOptionCall,
      order (applyOps emptyAccessProviderListOptions (map optionOf calls)) = None
      <-> suppliedOrder calls = [])
  /\ (forall inputs : list (list AccessProviderWhoOrderByInput),
      who_order (applyOps emptyAccessProviderWhoListOptions
                   (map WithAccessProviderWhoListOrder inputs)) = None
      <-> List.concat inputs = [])
  /\ (forall inputs : list (list AccessWhatOrderByInput),
      what_order (applyOps emptyAccessProviderWhatListOptions
                    (map WithAccessProviderWhatListOrder inputs)) = None
      <-> List.concat inputs = []).
Proof.
  split; [|split]; intro l.
  - rewrite applyOps_order, append_nil_iff. simpl. tauto.
  - rewrite applyOps_who_order, append_nil_iff. simpl. tauto.
  - rewrite applyOps_what_order, append_nil_iff. simpl. tauto.
Qed.

(** ** What reaches the service *)


(** ** Page loaders *)

Ltac unfold_page_loaders :=
  unfold ListAccessProviders_loadPageFn, GetAccessProviderWhoList_loadPageFn,
    GetAccessProviderWhatDataObjectList_loadPageFn, schema_ListAccessProviders,
    schema_GetAccessProviderWhoList, schema_GetAccessProviderWhatDataObjectList,
    roundTrip; simpl.

Ltac destruct_answer :=
  match goal with
  | |- context [match ?r with Ok _ => _ | Err _ => _ end] => destruct r as [[]|]
  end;
  repeat match goal with
  | |- context [match ?r with _ => _ end] => destruct r
  end.

(** X6: each loader returns either a PageInfo or an error, never both and
    never neither: the PageInfo is non-nil exactly when the error is nil. *)
Theorem loadPageFn_page_or_error
    (a : AccessProviderClient) (id : string) (cursor : option Cursor) (w : World) :
  (forall options,
      fst (fst (fst (ListAccessProviders_loadPageFn a options cursor w))) <> None
      <-> snd (fst (ListAccessProviders_loadPageFn a options cursor w)) = None)
  /\ (forall options,
      fst (fst (fst (GetAccessProviderWhoList_loadPageFn a id options cursor w))) <> None
      <-> snd (fst (GetAccessProviderWhoList_loadPageFn a id options cursor w)) = None)
  /\ (forall options,
      fst (fst (fst (GetAccessProviderWhatDataObjectList_loadPageFn
                       a id options cursor w))) <> None
      <-> snd (fst (GetAccessProviderWhatDataObjectList_loadPageFn
                      a id options cursor w)) = None).
Proof.
  split; [|split]; intro options; unfold_page_loaders; destruct_answer;
    simpl; split; congruence.
Qed.

(** X7: a loader returns a page exactly when the request succeeded with a
    paged result (inside the access provider, for the who and what lists),
    and the PageInfo and the edges it returns are those of the answer,
    unchanged. *)
Theorem loadPageFn_returns_the_page
    (a : AccessProviderClient) (id : string) (cursor : option Cursor) (w : World)
    (info : PageInfo) :
  (forall options edges,
      fst (ListAccessProviders_loadPageFn a options cursor w) = (Some info, edges, None)
      <-> fst (schema_ListAccessProviders (client a) cursor (ptr_Int 25)
                 (filter options) (order options) w)
          = Ok (ListAccessProvidersAccessProvidersPagedResult info edges))
  /\ (forall options edges,
      fst (GetAccessProviderWhoList_loadPageFn a id options cursor w)
      = (Some info, edges, None)
      <-> fst (schema_GetAccessProviderWhoList (client a) id cursor (ptr_Int 25) None
                 (who_order options) w)
          = Ok (GetAccessProviderWhoListAccessProvider
                  (GetAccessProviderWhoListAccessProviderWhoListPagedResult info edges)))
  /\ (forall options edges,
      fst (GetAccessProviderWhatDataObjectList_loadPageFn a id options cursor w)
      = (Some info, edges, None)
      <-> fst (schema_GetAccessProviderWhatDataObjectList (client a) id cursor
                 (ptr_Int 25) None (what_order options) w)
          = Ok (GetAccessProviderWhatDataObjectListAccessProvider
                  (GetAccessProviderWhatDataObjectListAccessProviderWhatDataObjectsPagedResult
                     info edges))).
Proof.
  split; [|split]; intros options edges; unfold_page_loaders; destruct_answer;
    simpl; split; congruence.
Qed.

(** ** Edge extractors *)

(** X8: whatever an extractor returns is read off the edge: the cursor is
    the cursor of the edge, the error is nil, and the item is the payload
    of the node, absent exactly when the node is. *)
Theorem edgeFn_returns_what_the_edge_holds :
  (forall edge cursor item err,
      ListAccessProviders_edgeFn edge = Returned (cursor, item, err) ->
      cursor = ap_Cursor edge /\ err = None
      /\ ap_Node edge = option_map AccessProviderPageEdgesEdgeNodeAccessProvider item)
  /\ (forall edge cursor item err,
      GetAccessProviderWhoList_edgeFn edge = Returned (cursor, item, err) ->
      cursor = who_Cursor edge /\ err = None
      /\ who_Node edge = option_map AccessProviderWhoListEdgesEdgeNodeAccessWhoItem item)
  /\ (forall edge cursor item err,
      GetAccessProviderWhatDataObjectList_edgeFn edge = Returned (cursor, item, err) ->
      cursor = what_Cursor edge /\ err = None
      /\ what_Node edge
         = option_map AccessProviderWhatListEdgesEdgeNodeAccessWhatItem item).
Proof.
  unfold ListAccessProviders_edgeFn, GetAccessProviderWhoList_edgeFn,
    GetAccessProviderWhatDataObjectList_edgeFn.
  split; [|split]; intros [cur [[payload|T]|]] cursor item err; simpl;
    intro Hreturn; try discriminate; injection Hreturn as <- <- <-;
    repeat split.
Qed.

(** X9: an extractor panics only on an edge whose node is present with a
    dynamic type other than the expected variant, and the panic is the
    error of the type assertion on that dynamic type. *)
Theorem edgeFn_panics_only_on_mismatch :
  (forall edge p,
      ListAccessProviders_edgeFn edge = Panicked p ->
      exists T,
        ap_Node edge = Some (AccessProviderPageEdgesEdgeNodeOther T)
        /\ p = TypeAssertionError T
                   "*schema.AccessProviderPageEdgesEdgeNodeAccessProvider")
  /\ (forall edge p,
      GetAccessProviderWhoList_edgeFn edge = Panicked p ->
      exists T,
        who_Node edge = Some (AccessProviderWhoListEdgesEdgeNodeOther T)
        /\ p = TypeAssertionError T
                   "*types.AccessProviderWhoListEdgesEdgeNodeAccessWhoItem")
  /\ (forall edge p,
      GetAccessProviderWhatDataObjectList_edgeFn edge = Panicked p ->
      exists T,
        what_Node edge = Some (AccessProviderWhatListEdgesEdgeNodeOther T)
        /\ p = TypeAssertionError T
                   "*types.AccessProviderWhatListEdgesEdgeNodeAccessWhatItem").
Proof.
  unfold ListAccessProviders_edgeFn, GetAccessProviderWhoList_edgeFn,
    GetAccessProviderWhatDataObjectList_edgeFn.
  split; [|split]; intros [cur [[payload|T]|]] p; simpl;
    intro Hpanic; try discriminate; injection Hpanic as <-;
    exists T; split; reflexivity.
Qed.

End ClientProperties.

(** * Evaluation on the sample service *)

Section SampleRuns.

Import Sample.

Example two_pages_listed :
  stream (trace (ListAccessProviders 2 (listing [paged page1; paged page2])
                   Background [] []))
  = [ListItemValue "ap-1"; ListItemValue "ap-2"; ListItemValue "ap-3"].
Proof. reflexivity. Qed.

Example options_reach_the_service :
  world (ListAccessProviders 1 (listing [paged page2]) Background
           [WithAccessProviderListOrder ["name"];
            WithAccessProviderListFilter (Some "mine");
            WithAccessProviderListOrder ["id"];
            WithAccessProviderListFilter (Some "theirs")] [])
  = [ReqListAccessProviders None (Some 25%Z) (Some "theirs") (Some ["name"; "id"])].
Proof. reflexivity. Qed.

Example absent_node_skipped :
  stream (trace (ListAccessProviders 1
                   (listing [Ok (ListAccessProvidersAccessProvidersPagedResult
                                   {| hasNextPage := false; endCursor := None |}
                                   (Some [edge "c1" "ap-1"; absentEdge "c2";
                                          edge "c3" "ap-3"]))])
                   Background [] []))
  = [ListItemValue "ap-1"; ListItemValue "ap-3"].
Proof. reflexivity. Qed.

Example immediate_permission_denial :
  trace (ListAccessProviders 3 (listing [denied]) Background [] [])
  = [Checkpoint 0 false;
     LoaderCall None (Some (NewErrPermissionDenied "listAccessProviders" "no access"));
     Checkpoint 1 false;
     Push (ListItemError (NewErrPermissionDenied "listAccessProviders" "no access"));
     Close].
Proof. reflexivity. Qed.

Example get_access_provider_offline :
  GetAccessProvider (NewAccessProviderClient offline) "ap-1" []
  = ((None, Some (NewErrClient "no route to host")), [ReqGetAccessProvider "ap-1"]).
Proof. reflexivity. Qed.

Example next_page_without_cursor :
  stream (trace (ListAccessProviders 3
                   (listing [Ok (ListAccessProvidersAccessProvidersPagedResult
                                   {| hasNextPage := true; endCursor := None |}
                                   (Some [edge "c1" "ap-1"]))])
                   Background [] []))
  = [ListItemValue "ap-1"; ListItemError ErrProtocolViolation].
Proof. reflexivity. Qed.

(** C1, as stated, fails twice over.  First: one page, not followed by
    another, whose only edge has a present node of another variant; the
    worker panics in the extractor and the stream holds no item, whatever
    the number of page fetches allowed.  Second: two pages with present
    nodes of the expected variant, both returned by the loader, and a
    context cancelled before the push of the third item; the stream holds
    two items for three edges. *)
Lemma ListAccessProviders_not_exhaustive :
  (chained [foreignPage]
   /\ loaderReturns (ListAccessProviders_loadPageFn (listing [paged foreignPage])
                       emptyAccessProviderListOptions) None [] [foreignPage]
   /\ Forall (fun e => ap_Node e <> None) (allEdges [foreignPage])
   /\ List.length (allEdges [foreignPage]) = 1
   /\ forall fuel,
        let run := ListAccessProviders fuel (listing [paged foreignPage])
                     Background [] [] in
        stream (trace run) = [] /\ final run <> Done)
  /\ (chained [page1; page2]
      /\ loaderReturns (ListAccessProviders_loadPageFn byCursor
                          emptyAccessProviderListOptions) None [] [page1; page2]
      /\ Forall2 holds (allEdges [page1; page2]) ["ap-1"; "ap-2"; "ap-3"]
      /\ forall fuel,
           let run := ListAccessProviders (2 + fuel) byCursor (WithCancelAt 4) [] [] in
           loaderCalls (trace run) = [None; Some "c2"]
           /\ stream (trace run) = [ListItemValue "ap-1"; ListItemValue "ap-2"]
           /\ final run = Cancelled).
Proof.
  split.
  - split; [reflexivity|].
    split; [split; [reflexivity | exact I]|].
    split; [repeat constructor; discriminate|].
    split; [reflexivity|].
    intros [|fuel]; split; try reflexivity; discriminate.
  - split; [simpl; repeat split; try reflexivity; discriminate|].
    split; [split; [reflexivity | split; [reflexivity | exact I]]|].
    split; [repeat constructor|].
    intro fuel. repeat split.
Qed.

(** The amended C1 on two pages of a service that answers by cursor. *)
Lemma ListAccessProviders_exhaustive_witness :
  let run := ListAccessProviders 2 byCursor (WithCancelAt 5) [] [] in
  chained [page1; page2]
  /\ loaderReturns (ListAccessProviders_loadPageFn byCursor
                      (applyOps emptyAccessProviderListOptions [])) None []
                   [page1; page2]
  /\ Forall2 holds (allEdges [page1; page2]) ["ap-1"; "ap-2"; "ap-3"]
  /\ (forall k, k < 2 + 3 -> ctx_Done (WithCancelAt 5) k = false)
  /\ 2 <= 2
  /\ stream (trace run)
     = [ListItemValue "ap-1"; ListItemValue "ap-2"; ListItemValue "ap-3"]
  /\ final run = Done
  /\ (exists t, trace run = t ++ [Close])
  /\ List.length (loaderCalls (trace run)) = 2.
Proof.
  intro run.
  assert (Hchain : chained [page1; page2]).
  { simpl. repeat split; try reflexivity; discriminate. }
  assert (Hloads : loaderReturns
                     (ListAccessProviders_loadPageFn byCursor
                        (applyOps emptyAccessProviderListOptions [])) None []
                     [page1; page2]).
  { split; [reflexivity|]. split; [reflexivity | exact I]. }
  assert (Hall : Forall2 holds (allEdges [page1; page2]) ["ap-1"; "ap-2"; "ap-3"]).
  { repeat constructor. }
  assert (Hctx : forall k, k < List.length [page1; page2]
                               + List.length ["ap-1"; "ap-2"; "ap-3"] ->
                           ctx_Done (WithCancelAt 5) k = false).
  { intros k Hk. simpl in Hk. unfold ctx_Done, WithCancelAt.
    cbn [cancelledFrom]. apply Nat.leb_gt. exact Hk. }
  assert (Hfuel : List.length [page1; page2] <= 2) by (simpl; lia).
  split; [exact Hchain|]. split; [exact Hloads|]. split; [exact Hall|].
  split; [exact Hctx|]. split; [exact Hfuel|].
  exact (@ListAccessProviders_exhaustive schema byCursor (WithCancelAt 5) []
           [] [page1; page2] ["ap-1"; "ap-2"; "ap-3"] 2
           Hchain Hloads Hall Hctx Hfuel).
Defined.

(** C2, as stated, fails: on an edge whose node is present with another
    variant the extractor returns no value at all, hence no error value. *)
Lemma edgeFn_mismatch_returns_no_error_value :
  ap_Node (foreignEdge "c1") <> None
  /\ (forall ap, ap_Node (foreignEdge "c1")
                 <> Some (AccessProviderPageEdgesEdgeNodeAccessProvider ap))
  /\ (forall out, ListAccessProviders_edgeFn (foreignEdge "c1") <> Returned out)
  /\ exists p, ListAccessProviders_edgeFn (foreignEdge "c1") = Panicked p.
Proof.
  split; [discriminate|].
  split; [intro ap; discriminate|].
  split; [intro out; discriminate|].
  eexists. reflexivity.
Qed.

(** The amended C2 on one edge of each list. *)
Lemma edgeFn_mismatch_panics_witness :
  (ap_Node (foreignEdge "c1")
   = Some (AccessProviderPageEdgesEdgeNodeOther
             "*schema.AccessProviderPageEdgesEdgeNodeDataObject")
   /\ ListAccessProviders_edgeFn (foreignEdge "c1")
      = Panicked (TypeAssertionError
                    "*schema.AccessProviderPageEdgesEdgeNodeDataObject"
                    "*schema.AccessProviderPageEdgesEdgeNodeAccessProvider"))
  /\ (who_Node (whoForeignEdge "c1")
      = Some (AccessProviderWhoListEdgesEdgeNodeOther
                "*types.AccessProviderWhoListEdgesEdgeNodeGroup")
      /\ GetAccessProviderWhoList_edgeFn (whoForeignEdge "c1")
         = Panicked (TypeAssertionError
                       "*types.AccessProviderWhoListEdgesEdgeNodeGroup"
                       "*types.AccessProviderWhoListEdgesEdgeNodeAccessWhoItem"))
  /\ (what_Node (whatForeignEdge "c1")
      = Some (AccessProviderWhatListEdgesEdgeNodeOther
                "*types.AccessProviderWhatListEdgesEdgeNodeDataObject")
      /\ GetAccessProviderWhatDataObjectList_edgeFn (whatForeignEdge "c1")
         = Panicked (TypeAssertionError
                       "*types.AccessProviderWhatListEdgesEdgeNodeDataObject"
                       "*types.AccessProviderWhatListEdgesEdgeNodeAccessWhatItem"))
  /\ (ListAccessProviders_edgeFn (edge "c1" "ap-1")
      = Returned (Some "c1", Some "ap-1", None)
      /\ @None error = None)
  /\ (GetAccessProviderWhoList_edgeFn (whoEdge "c1" "alice")
      = Returned (Some "c1", Some "alice", None)
      /\ @None error = None)
  /\ (GetAccessProviderWhatDataObjectList_edgeFn (whatEdge "c1" "table")
      = Returned (Some "c1", Some "table", None)
      /\ @None error = None).
Proof.
  destruct (@edgeFn_mismatch_panics schema) as (Hap & Hwho & Hwhat & Rap & Rwho & Rwhat).
  split; [split; [reflexivity | exact (Hap (foreignEdge "c1") _ eq_refl)]|].
  split; [split; [reflexivity | exact (Hwho (whoForeignEdge "c1") _ eq_refl)]|].
  split; [split; [reflexivity | exact (Hwhat (whatForeignEdge "c1") _ eq_refl)]|].
  split; [split; [reflexivity | exact (Rap (edge "c1" "ap-1") _ _ _ eq_refl)]|].
  split; [split; [reflexivity | exact (Rwho (whoEdge "c1" "alice") _ _ _ eq_refl)]|].
  split; [reflexivity | exact (Rwhat (whatEdge "c1" "table") _ _ _ eq_refl)].
Defined.

(** C4, as stated, fails: the node of this edge is present, and the
    extractor does not return the cursor of the edge. *)
Lemma edgeFn_present_node_without_cursor_returned :
  ap_Node (foreignEdge "c1") <> None
  /\ forall item err,
       ListAccessProviders_edgeFn (foreignEdge "c1")
       <> Returned (ap_Cursor (foreignEdge "c1"), item, err).
Proof.
  split; [discriminate|]. intros item err. discriminate.
Qed.

(** The amended C4 on edges with an absent node and with a node of the
    expected variant. *)
Lemma edgeFn_returns_cursor_and_skips_absent_node_witness :
  (ap_Node (absentEdge "c2") = None
   /\ ListAccessProviders_edgeFn (absentEdge "c2") = Returned (Some "c2", None, None))
  /\ (ap_Node (edge "c1" "ap-1")
      = Some (AccessProviderPageEdgesEdgeNodeAccessProvider "ap-1")
      /\ ListAccessProviders_edgeFn (edge "c1" "ap-1")
         = Returned (Some "c1", Some "ap-1", None))
  /\ (what_Node (whatAbsentEdge "c2") = None
      /\ GetAccessProviderWhatDataObjectList_edgeFn (whatAbsentEdge "c2")
         = Returned (Some "c2", None, None))
  /\ (what_Node (whatEdge "c1" "table")
      = Some (AccessProviderWhatListEdgesEdgeNodeAccessWhatItem "table")
      /\ GetAccessProviderWhatDataObjectList_edgeFn (whatEdge "c1" "table")
         = Returned (Some "c1", Some "table", None))
  /\ stream (fst (drain Background ListAccessProviders_edgeFn
                    [absentEdge "c2"; edge "c3" "ap-3"] 1))
     = [ListItemValue "ap-3"]
  /\ stream (fst (drain Background GetAccessProviderWhatDataObjectList_edgeFn
                    [whatAbsentEdge "c2"; whatEdge "c3" "view"] 1))
     = [ListItemValue "view"].
Proof.
  destruct (@edgeFn_returns_cursor_and_skips_absent_node schema)
    as (Hap0 & Hap1 & Hwhat0 & Hwhat1 & Dap & Dwhat).
  split; [split; [reflexivity | exact (Hap0 (absentEdge "c2") eq_refl)]|].
  split; [split; [reflexivity | exact (Hap1 (edge "c1" "ap-1") _ eq_refl)]|].
  split; [split; [reflexivity | exact (Hwhat0 (whatAbsentEdge "c2") eq_refl)]|].
  split; [split; [reflexivity | exact (Hwhat1 (whatEdge "c1" "table") _ eq_refl)]|].
  split.
  - exact (proj1 (Dap Background (absentEdge "c2") [edge "c3" "ap-3"] 1 eq_refl)).
  - exact (proj1 (Dwhat Background (whatAbsentEdge "c2") [whatEdge "c3" "view"] 1
                    eq_refl)).
Defined.

(** C5, as stated, fails twice over.  First: the first loader call fails
    and the context is cancelled before the next checkpoint; the stream is
    closed without an error item.  Second: the extractor fails on a
    present node of another variant, by a panic; the worker ends with
    neither an error item nor the closing of the stream. *)
Lemma failed_call_without_error_item :
  (let err := NewErrPermissionDenied "listAccessProviders" "no access" in
   forall fuel,
     let run := ListAccessProviders (S fuel) (listing [denied]) (WithCancelAt 1) [] [] in
     trace run = [Checkpoint 0 false; LoaderCall None (Some err);
                  Checkpoint 1 true; Close]
     /\ stream (trace run) = []
     /\ final run = Cancelled)
  /\ (exists p,
        ListAccessProviders_edgeFn (foreignEdge "c1") = Panicked p
        /\ forall fuel,
             let run := ListAccessProviders (S fuel) (listing [paged foreignPage])
                          Background [] [] in
             trace run = [Checkpoint 0 false; LoaderCall None None; Panic p]
             /\ stream (trace run) = []
             /\ ~ In Close (trace run)
             /\ final run = Crashed).
Proof.
  split.
  - intros err fuel. repeat split.
  - eexists. split; [reflexivity|].
    intro fuel. split; [reflexivity|]. split; [reflexivity|].
    split; [|reflexivity].
    simpl. intros [Hin|[Hin|[Hin|[]]]]; discriminate.
Qed.

(** The amended C5 on a service that denies the second page, in a context
    cancelled only after the error is pushed. *)
Lemma single_error_termination_witness :
  let err := NewErrPermissionDenied "listAccessProviders" "no access" in
  let run := ListAccessProviders 5 (listing [paged page1; denied])
               (WithCancelAt 5) [] [] in
  let pre := [Checkpoint 0 false; LoaderCall None None;
              ExtractorCall None; Checkpoint 1 false; Push (ListItemValue "ap-1");
              ExtractorCall None; Checkpoint 2 false; Push (ListItemValue "ap-2");
              Checkpoint 3 false] in
  let ev := LoaderCall (Some "c2") (Some err) in
  let post := [Checkpoint 4 false; Push (ListItemError err); Close] in
  trace run = pre ++ ev :: post
  /\ failure ev = Some err
  /\ ctx_Done (WithCancelAt 5) (List.length (checkpoints pre)) = false
  /\ stream (trace run)
     = [ListItemValue "ap-1"; ListItemValue "ap-2"; ListItemError err]
  /\ loaderCalls post = []
  /\ final run = Errored.
Proof.
  intros err run pre ev post.
  assert (Htrace : trace run = pre ++ ev :: post) by reflexivity.
  assert (Hfail : failure ev = Some err) by reflexivity.
  assert (Hctx : ctx_Done (WithCancelAt 5) (List.length (checkpoints pre)) = false)
    by reflexivity.
  split; [exact Htrace|]. split; [exact Hfail|]. split; [exact Hctx|].
  destruct (@single_error_termination schema _ _ _ (WithCancelAt 5)
              (ListAccessProviders_loadPageFn (listing [paged page1; denied])
                 (applyOps emptyAccessProviderListOptions []))
              ListAccessProviders_edgeFn 5 [] pre ev post err Htrace Hfail Hctx)
    as (_ & Hstream & _ & Hcalls & Hfinal).
  split; [exact Hstream|]. split; [exact Hcalls | exact Hfinal].
Defined.


(** C6 on answers of an unknown variant, at each level of each loader. *)
Lemma loadPageFn_unknown_variant_returns_error_witness :
  let unknownList := listing [Ok (ListAccessProvidersAccessProvidersOther "*schema.Other")] in
  let unknownWho := whoListing [Ok (GetAccessProviderWhoListAccessProviderOther "<nil>")] in
  let unknownWhoList :=
    whoListing [Ok (GetAccessProviderWhoListAccessProvider
                      (GetAccessProviderWhoListAccessProviderWhoListOther "<nil>"))] in
  let unknownWhat :=
    whatListing [Ok (GetAccessProviderWhatDataObjectListAccessProviderOther "<nil>")] in
  let unknownWhatList :=
    whatListing [Ok (GetAccessProviderWhatDataObjectListAccessProvider
                       (GetAccessProviderWhatDataObjectListAccessProviderWhatDataObjectsOther
                          "<nil>"))] in
  (fst (schema_ListAccessProviders (client unknownList) None (ptr_Int 25) None None [])
   = Ok (ListAccessProvidersAccessProvidersOther "*schema.Other")
   /\ fst (ListAccessProviders_loadPageFn unknownList emptyAccessProviderListOptions
             None [])
      = (None, None, Some (errors_New "unreachable")))
  /\ (fst (schema_GetAccessProviderWhoList (client unknownWho) "ap" None (ptr_Int 25)
             None None [])
      = Ok (GetAccessProviderWhoListAccessProviderOther "<nil>")
      /\ fst (GetAccessProviderWhoList_loadPageFn unknownWho "ap"
                emptyAccessProviderWhoListOptions None [])
         = (None, None, Some (Errorf_unexpected_type "<nil>")))
  /\ (fst (schema_GetAccessProviderWhoList (client unknownWhoList) "ap" None (ptr_Int 25)
             None None [])
      = Ok (GetAccessProviderWhoListAccessProvider
              (GetAccessProviderWhoListAccessProviderWhoListOther "<nil>"))
      /\ fst (GetAccessProviderWhoList_loadPageFn unknownWhoList "ap"
                emptyAccessProviderWhoListOptions None [])
         = (None, None, Some (errors_New "unreachable")))
  /\ (fst (schema_GetAccessProviderWhatDataObjectList (client unknownWhat) "ap" None
             (ptr_Int 25) None None [])
      = Ok (GetAccessProviderWhatDataObjectListAccessProviderOther "<nil>")
      /\ fst (GetAccessProviderWhatDataObjectList_loadPageFn unknownWhat "ap"
                emptyAccessProviderWhatListOptions None [])
         = (None, None, Some (Errorf_unexpected_type "<nil>")))
  /\ (fst (schema_GetAccessProviderWhatDataObjectList (client unknownWhatList) "ap" None
             (ptr_Int 25) None None [])
      = Ok (GetAccessProviderWhatDataObjectListAccessProvider
              (GetAccessProviderWhatDataObjectListAccessProviderWhatDataObjectsOther
                 "<nil>"))
      /\ fst (GetAccessProviderWhatDataObjectList_loadPageFn unknownWhatList "ap"
                emptyAccessProviderWhatListOptions None [])
         = (None, None, Some (errors_New "unreachable"))).
Proof.
  intros unknownList unknownWho unknownWhoList unknownWhat unknownWhatList.
  split.
  { split; [reflexivity|].
    exact (proj1 (loadPageFn_unknown_variant_returns_error unknownList "ap" None [])
                 emptyAccessProviderListOptions _ eq_refl). }
  split.
  { split; [reflexivity|].
    destruct (loadPageFn_unknown_variant_returns_error unknownWho "ap" None [])
      as (_ & Houter & _).
    exact (Houter emptyAccessProviderWhoListOptions _ eq_refl). }
  split.
  { split; [reflexivity|].
    destruct (loadPageFn_unknown_variant_returns_error unknownWhoList "ap" None [])
      as (_ & _ & Hinner & _).
    exact (Hinner emptyAccessProviderWhoListOptions _ eq_refl). }
  split.
  { split; [reflexivity|].
    destruct (loadPageFn_unknown_variant_returns_error unknownWhat "ap" None [])
      as (_ & _ & _ & Houter & _).
    exact (Houter emptyAccessProviderWhatListOptions _ eq_refl). }
  split; [reflexivity|].
  destruct (loadPageFn_unknown_variant_returns_error unknownWhatList "ap" None [])
    as (_ & _ & _ & _ & Hinner).
  exact (Hinner emptyAccessProviderWhatListOptions _ eq_refl).
Defined.

(** C7 on denied, missing and unreachable services. *)
Lemma loadPageFn_error_is_alone_and_keeps_its_kind_witness :
  let deniedList := listing [denied] in
  let deniedWho :=
    whoListing [Ok (GetAccessProviderWhoListAccessProviderPermissionDeniedError "no")] in
  let deniedWhoList :=
    whoListing [Ok (GetAccessProviderWhoListAccessProvider
                      (GetAccessProviderWhoListAccessProviderWhoListPermissionDeniedError
                         "no"))] in
  let missingWho :=
    whoListing [Ok (GetAccessProviderWhoListAccessProviderNotFoundError "gone")] in
  let request :=
    ReqListAccessProviders None (Some 25%Z) None None in
  let whoRequest :=
    ReqGetAccessProviderWhoList "ap" None (Some 25%Z) None None in
  let whatRequest :=
    ReqGetAccessProviderWhatDataObjectList "ap" None (Some 25%Z) None None in
  ListAccessProviders_loadPageFn deniedList emptyAccessProviderListOptions None []
  = ((None, None, Some (NewErrPermissionDenied "listAccessProviders" "no access")),
     [request])
  /\ GetAccessProviderWhoList_loadPageFn missingWho "ap"
       emptyAccessProviderWhoListOptions None []
     = ((None, None, Some (NewErrNotFound "AccessProvider" "ap" "gone")), [whoRequest])
  /\ GetAccessProviderWhatDataObjectList_loadPageFn (NewAccessProviderClient offline) "ap"
       emptyAccessProviderWhatListOptions None []
     = ((None, None, Some (NewErrClient "no route to host")), [whatRequest])
  /\ (exists err,
        fst (ListAccessProviders_loadPageFn deniedList emptyAccessProviderListOptions
               None [])
        = (None, None, Some err) /\ kind err = PermissionDenied)
  /\ (exists err,
        fst (GetAccessProviderWhoList_loadPageFn deniedWho "ap"
               emptyAccessProviderWhoListOptions None [])
        = (None, None, Some err) /\ kind err = PermissionDenied)
  /\ (exists err,
        fst (GetAccessProviderWhoList_loadPageFn deniedWhoList "ap"
               emptyAccessProviderWhoListOptions None [])
        = (None, None, Some err) /\ kind err = PermissionDenied)
  /\ (exists err,
        fst (GetAccessProviderWhoList_loadPageFn missingWho "ap"
               emptyAccessProviderWhoListOptions None [])
        = (None, None, Some err) /\ kind err = NotFound)
  /\ (exists err,
        fst (ListAccessProviders_loadPageFn (NewAccessProviderClient offline)
               emptyAccessProviderListOptions None [])
        = (None, None, Some err) /\ kind err = TransportError)
  /\ (exists err,
        fst (GetAccessProviderWhoList_loadPageFn (NewAccessProviderClient offline) "ap"
               emptyAccessProviderWhoListOptions None [])
        = (None, None, Some err) /\ kind err = TransportError).
Proof.
  intros deniedList deniedWho deniedWhoList missingWho request whoRequest whatRequest.
  assert (H1 : ListAccessProviders_loadPageFn deniedList emptyAccessProviderListOptions
                 None []
               = ((None, None,
                   Some (NewErrPermissionDenied "listAccessProviders" "no access")),
                  [request])) by reflexivity.
  assert (H2 : GetAccessProviderWhoList_loadPageFn missingWho "ap"
                 emptyAccessProviderWhoListOptions None []
               = ((None, None, Some (NewErrNotFound "AccessProvider" "ap" "gone")),
                  [whoRequest])) by reflexivity.
  assert (H3 : GetAccessProviderWhatDataObjectList_loadPageFn
                 (NewAccessProviderClient offline) "ap"
                 emptyAccessProviderWhatListOptions None []
               = ((None, None, Some (NewErrClient "no route to host")), [whatRequest]))
    by reflexivity.
  destruct (loadPageFn_error_is_alone_and_keeps_its_kind deniedList "ap" None [])
    as (A1 & _ & _ & K1 & _).
  destruct (loadPageFn_error_is_alone_and_keeps_its_kind missingWho "ap" None [])
    as (_ & A2 & _ & _ & _ & _ & K4 & _).
  destruct (loadPageFn_error_is_alone_and_keeps_its_kind
              (NewAccessProviderClient offline) "ap" None [])
    as (_ & _ & A3 & _ & _ & _ & _ & K5 & K6 & _).
  destruct (loadPageFn_error_is_alone_and_keeps_its_kind deniedWho "ap" None [])
    as (_ & _ & _ & _ & K2 & _).
  destruct (loadPageFn_error_is_alone_and_keeps_its_kind deniedWhoList "ap" None [])
    as (_ & _ & _ & _ & _ & K3 & _).
  destruct (A1 _ _ _ _ _ H1) as [_ _].
  destruct (A2 _ _ _ _ _ H2) as [_ _].
  destruct (A3 _ _ _ _ _ H3) as [_ _].
  split; [exact H1|]. split; [exact H2|]. split; [exact H3|].
  split; [exact (K1 emptyAccessProviderListOptions _ eq_refl)|].
  split; [exact (K2 emptyAccessProviderWhoListOptions _ eq_refl)|].
  split; [exact (K3 emptyAccessProviderWhoListOptions _ eq_refl)|].
  split; [exact (K4 emptyAccessProviderWhoListOptions _ eq_refl)|].
  split; [exact (K5 emptyAccessProviderListOptions _ eq_refl)|].
  exact (K6 emptyAccessProviderWhoListOptions _ eq_refl).
Defined.

Example calls_in_a_row :
  performAll (NewAccessProviderClient offline)
             [CallCreateAccessProvider "new"; CallGetAccessProvider "ap-1";
              CallUpdateAccessProvider "ap-1" "renamed"; CallDeleteAccessProvider "ap-1"]
             []
  = [ReqCreateAccessProvider "new"; ReqGetAccessProvider "ap-1";
     ReqUpdateAccessProvider "ap-1" "renamed"; ReqDeleteAccessProvider "ap-1"].
Proof. reflexivity. Qed.

Example empty_order_option_keeps_nil :
  world (ListAccessProviders 1 (listing [paged page2]) Background
           [WithAccessProviderListOrder []; WithAccessProviderListFilter (Some "mine")] [])
  = [ReqListAccessProviders None (Some 25%Z) (Some "mine") None].
Proof. reflexivity. Qed.

(** X8 on one edge of each list. *)
Lemma edgeFn_returns_what_the_edge_holds_witness :
  (ListAccessProviders_edgeFn (edge "c1" "ap-1") = Returned (Some "c1", Some "ap-1", None)
   /\ ap_Node (edge "c1" "ap-1")
      = option_map AccessProviderPageEdgesEdgeNodeAccessProvider (Some "ap-1"))
  /\ (GetAccessProviderWhoList_edgeFn (whoEdge "c1" "alice")
      = Returned (Some "c1", Some "alice", None)
      /\ who_Node (whoEdge "c1" "alice")
         = option_map AccessProviderWhoListEdgesEdgeNodeAccessWhoItem (Some "alice"))
  /\ (GetAccessProviderWhatDataObjectList_edgeFn (whatAbsentEdge "c2")
      = Returned (Some "c2", None, None)
      /\ what_Node (whatAbsentEdge "c2")
         = option_map AccessProviderWhatListEdgesEdgeNodeAccessWhatItem None).
Proof.
  destruct (@edgeFn_returns_what_the_edge_holds schema) as (Hap & Hwho & Hwhat).
  split; [split; [reflexivity|]|split; [split; [reflexivity|]|split; [reflexivity|]]].
  - exact (proj2 (proj2 (Hap (edge "c1" "ap-1") _ _ _ eq_refl))).
  - exact (proj2 (proj2 (Hwho (whoEdge "c1" "alice") _ _ _ eq_refl))).
  - exact (proj2 (proj2 (Hwhat (whatAbsentEdge "c2") _ _ _ eq_refl))).
Defined.

(** X9 on one edge of each list. *)
Lemma edgeFn_panics_only_on_mismatch_witness :
  (ListAccessProviders_edgeFn (foreignEdge "c1")
   = Panicked (TypeAssertionError
                 "*schema.AccessProviderPageEdgesEdgeNodeDataObject"
                 "*schema.AccessProviderPageEdgesEdgeNodeAccessProvider")
   /\ exists T, ap_Node (foreignEdge "c1") = Some (AccessProviderPageEdgesEdgeNodeOther T))
  /\ (GetAccessProviderWhoList_edgeFn (whoForeignEdge "c1")
      = Panicked (TypeAssertionError
                    "*types.AccessProviderWhoListEdgesEdgeNodeGroup"
                    "*types.AccessProviderWhoListEdgesEdgeNodeAccessWhoItem")
      /\ exists T,
           who_Node (whoForeignEdge "c1") = Some (AccessProviderWhoListEdgesEdgeNodeOther T))
  /\ (GetAccessProviderWhatDataObjectList_edgeFn (whatForeignEdge "c1")
      = Panicked (TypeAssertionError
                    "*types.AccessProviderWhatListEdgesEdgeNodeDataObject"
                    "*types.AccessProviderWhatListEdgesEdgeNodeAccessWhatItem")
      /\ exists T,
           what_Node (whatForeignEdge "c1")
           = Some (AccessProviderWhatListEdgesEdgeNodeOther T)).
Proof.
  destruct (@edgeFn_panics_only_on_mismatch schema) as (Hap & Hwho & Hwhat).
  split; [split; [reflexivity|]|split; [split; [reflexivity|]|split; [reflexivity|]]].
  - destruct (Hap (foreignEdge "c1") _ eq_refl) as (T & Hnode & _).
    exists T. exact Hnode.
  - destruct (Hwho (whoForeignEdge "c1") _ eq_refl) as (T & Hnode & _).
    exists T. exact Hnode.
  - destruct (Hwhat (whatForeignEdge "c1") _ eq_refl) as (T & Hnode & _).
    exists T. exact Hnode.
Defined.

End SampleRuns.
